(** * Ocean Chat: the send controller of [App.js]

    A shallow embedding of the stateful core of
    [multi_agent_chatbot_frontend/src/App.js]: the response simulator,
    the two backend calls and the [handleSend] controller, together with
    the properties the specification states about them.

    Modelling conventions.
    - A JavaScript string is a sequence of UTF-16 code units.  The model
      uses [string], one [ascii] per code unit, which covers the code
      units below 256 (Basic Latin and Latin-1).
    - JavaScript numbers are modelled by [Z]: the numbers the controller
      handles are epoch milliseconds, array indices and HTTP status codes.
    - A JavaScript object used as a string-keyed record is a
      [gmap string jsval]; lookups do not depend on insertion order.
    - An [async] function is a tree of effects ([proc]); the tree is run
      up to its next suspension on the network by [run]. *)

From Stdlib Require Import ZArith NArith Ascii String List Bool Lia.
From stdpp Require Import base option list strings pretty gmap fin_maps.

Local Open Scope string_scope.
Local Open Scope Z_scope.

(** ** JavaScript values *)

#[warnings="-register-all"]
Inductive jsval : Type :=
| JUndefined
| JNull
| JBool (b : bool)
| JNum (n : Z)
| JStr (s : string)
| JArr (l : list jsval)
| JObj (o : gmap string jsval).

(** [ToBoolean]: the values that [||], [!] and [if] treat as false are
    [undefined], [null], [false], [0] and the empty string. *)
Definition truthy (v : jsval) : bool :=
  match v with
  | JUndefined | JNull => false
  | JBool b => b
  | JNum n => negb (n =? 0)
  | JStr s => negb (String.eqb s EmptyString)
  | JArr _ | JObj _ => true
  end.

(** [a || b] *)
Definition js_or (a b : jsval) : jsval := if truthy a then a else b.

(** ** Strings *)

Module Str.

Definition dquote : string := String "034"%char EmptyString.

Definition in_range (lo hi n : N) : bool := ((lo <=? n) && (n <=? hi))%N.

(** Lower-case mapping of one code unit below 256: [A-Z], and the
    Latin-1 capitals U+00C0..U+00DE except the multiplication sign. *)
Definition lowerUnit (c : ascii) : ascii :=
  let n := N_of_ascii c in
  if in_range 65 90 n || (in_range 192 222 n && negb (n =? 215)%N)
  then ascii_of_N (n + 32)
  else c.

(** [s.toLowerCase()] *)
Fixpoint toLowerCase (s : string) : string :=
  match s with
  | EmptyString => EmptyString
  | String c r => String (lowerUnit c) (toLowerCase r)
  end.

(** [s.includes(sub)] *)
Fixpoint includes (sub s : string) : bool :=
  String.prefix sub s ||
  match s with
  | EmptyString => false
  | String _ r => includes sub r
  end.

(** [s.slice(b, e)], with the clamping of negative and oversized
    positions that [String.prototype.slice] performs. *)
Definition clamp (len i : Z) : Z :=
  if i <? 0 then Z.max (len + i) 0 else Z.min i len.

Definition slice (s : string) (b e : Z) : string :=
  let len := Z.of_nat (String.length s) in
  let from := clamp len b in
  let to := clamp len e in
  if to <=? from then EmptyString
  else String.substring (Z.to_nat from) (Z.to_nat (to - from)) s.

(** White space and line terminators below 256, as [trim] strips them:
    TAB, LF, VT, FF, CR, SP and NBSP. *)
Definition isWhite (c : ascii) : bool :=
  let n := N_of_ascii c in
  (in_range 9 13 n || (n =? 32) || (n =? 160))%N.

Fixpoint trimStart (s : string) : string :=
  match s with
  | EmptyString => EmptyString
  | String c r => if isWhite c then trimStart r else s
  end.

Fixpoint trimEnd (s : string) : string :=
  match s with
  | EmptyString => EmptyString
  | String c r =>
      match trimEnd r with
      | EmptyString => if isWhite c then EmptyString else String c EmptyString
      | r' => String c r'
      end
  end.

(** [s.trim()] *)
Definition trim (s : string) : string := trimEnd (trimStart s).

(** Substring occurrence, as the specification words it. *)
Definition contains (sub s : string) : Prop :=
  exists pre post, s = pre ++ sub ++ post.

(** The decimal rendering of an index is made of digits, so the last
    [_] of a generated id separates the index from the rest. *)
Definition is_digit (c : ascii) : bool := in_range 48 57 (N_of_ascii c).

Fixpoint all_digits (s : string) : bool :=
  match s with
  | EmptyString => true
  | String c r => is_digit c && all_digits r
  end.

End Str.

(** The template-literal rendering of a number. *)
Definition num_to_string (n : Z) : string := pretty n.

(** A property read [v.k] on a value that is not [null] or [undefined]:
    own properties of objects, nothing on the primitives and arrays for
    the keys the controller reads. *)
Definition prop (v : jsval) (k : string) : jsval :=
  match v with
  | JObj o => default JUndefined (o !! k)
  | _ => JUndefined
  end.

Definition nullish (v : jsval) : bool :=
  match v with JUndefined | JNull => true | _ => false end.

(** The own enumerable properties that an object spread [{...v}] copies:
    the fields of an object, the elements of an array and the code units
    of a string under their indices, nothing for the other primitives. *)
Definition indexed {A} (f : A -> jsval) (l : list A) : gmap string jsval :=
  list_to_map (imap (fun i x => (pretty i, f x)) l).

Definition spread (v : jsval) : gmap string jsval :=
  match v with
  | JObj o => o
  | JArr l => indexed id l
  | JStr s => indexed (fun c => JStr (String c EmptyString)) (list_ascii_of_string s)
  | _ => ∅
  end.

(** ** Data model *)

(** A chat entry.  A property that the object literal does not write
    reads as [JUndefined]. *)
Record ChatMessage : Type := mkMsg {
  id : string;
  role : jsval;
  agentId : jsval;
  content : jsval;
  timestamp : jsval;
  error : jsval
}.

(** The [useState] cells of [App]. *)
Record AppState : Type := mkState {
  messages : list ChatMessage;
  input : string;
  agentStatus : gmap string jsval;
  isSending : bool;
  theme : string
}.

Definition with_messages (f : list ChatMessage -> list ChatMessage) (s : AppState) : AppState :=
  mkState (f (messages s)) (input s) (agentStatus s) (isSending s) (theme s).
Definition with_input (v : string) (s : AppState) : AppState :=
  mkState (messages s) v (agentStatus s) (isSending s) (theme s).
Definition with_agentStatus (f : gmap string jsval -> gmap string jsval) (s : AppState) : AppState :=
  mkState (messages s) (input s) (f (agentStatus s)) (isSending s) (theme s).
Definition with_isSending (b : bool) (s : AppState) : AppState :=
  mkState (messages s) (input s) (agentStatus s) b (theme s).

(** A thrown [Error] object: its class name and its message. *)
Record JsError : Type := mkError { err_name : string; err_message : string }.

(** ** The network *)

Record Request : Type := mkRequest {
  req_url : string;
  req_method : string;
  req_headers : list (string * string);
  (** the value handed to [JSON.stringify], when a body is sent *)
  req_body : option jsval
}.

(** What the controller observes of a [Response]: the status code, and
    how the two body readers settle.  [res_text] is the outcome of
    [res.text()]; [res_json] is the outcome of [res.json()], [None] when
    the promise rejects (the body is not JSON, or the stream fails). *)
Record Response : Type := mkResponse {
  res_status : Z;
  res_text : JsError + string;
  res_json : option jsval
}.

(** [res.ok]: the status is in the range 200-299. *)
Definition res_ok (r : Response) : bool := (200 <=? res_status r) && (res_status r <=? 299).

Inductive FetchOutcome : Type :=
| Rejected (e : JsError)
| Resolved (res : Response).

(** ** Effects *)

(** The effects of a handler, in program order.  [Fetch] is the one
    suspension point: the continuation runs when the environment settles
    the request.  [Crash] is an error raised while React computes a state
    update: no handler of the component catches it.  The model ends the
    handler there; what the handler would still call before React renders
    and unmounts the tree is not followed. *)
Inductive proc (R : Type) : Type :=
| Ret (r : R)
| Throw (e : JsError)
| Crash (e : JsError)
| DateNow (k : Z -> proc R)
| SetState (f : AppState -> AppState) (k : proc R)
| SetTimeout (cb : AppState -> AppState) (delay : Z) (k : proc R)
| Console (level : string) (e : JsError) (k : proc R)
| Fetch (req : Request) (k : FetchOutcome -> proc R).

Arguments Ret {R} r.
Arguments Throw {R} e.
Arguments Crash {R} e.
Arguments DateNow {R} k.
Arguments SetState {R} f k.
Arguments SetTimeout {R} cb delay k.
Arguments Console {R} level e k.
Arguments Fetch {R} req k.

(** The continuation of a handler that starts with its request. *)
Definition settle {R} (p : proc R) (o : FetchOutcome) : proc R :=
  match p with
  | Fetch _ k => k o
  | _ => p
  end.

Module Proc.

Fixpoint bind {A B} (p : proc A) (f : A -> proc B) : proc B :=
  match p with
  | Ret a => f a
  | Throw e => Throw e
  | Crash e => Crash e
  | DateNow k => DateNow (fun t => bind (k t) f)
  | SetState g k => SetState g (bind k f)
  | SetTimeout cb d k => SetTimeout cb d (bind k f)
  | Console l e k => Console l e (bind k f)
  | Fetch req k => Fetch req (fun o => bind (k o) f)
  end.

(** [try { p } catch (err) { h err }] *)
Fixpoint try_catch {A} (p : proc A) (h : JsError -> proc A) : proc A :=
  match p with
  | Ret a => Ret a
  | Throw e => h e
  | Crash e => Crash e
  | DateNow k => DateNow (fun t => try_catch (k t) h)
  | SetState g k => SetState g (try_catch k h)
  | SetTimeout cb d k => SetTimeout cb d (try_catch k h)
  | Console l e k => Console l e (try_catch k h)
  | Fetch req k => Fetch req (fun o => try_catch (k o) h)
  end.

(** [try { p } finally { f }] *)
Fixpoint try_finally {A} (p : proc A) (f : proc unit) : proc A :=
  match p with
  | Ret a => bind f (fun _ => Ret a)
  | Throw e => bind f (fun _ => Throw e)
  | Crash e => Crash e
  | DateNow k => DateNow (fun t => try_finally (k t) f)
  | SetState g k => SetState g (try_finally k f)
  | SetTimeout cb d k => SetTimeout cb d (try_finally k f)
  | Console l e k => Console l e (try_finally k f)
  | Fetch req k => Fetch req (fun o => try_finally (k o) f)
  end.

Definition now : proc Z := DateNow Ret.
Definition setState (f : AppState -> AppState) : proc unit := SetState f (Ret tt).
Definition setTimeout (cb : AppState -> AppState) (d : Z) : proc unit := SetTimeout cb d (Ret tt).
Definition console (l : string) (e : JsError) : proc unit := Console l e (Ret tt).
Definition fetch (req : Request) : proc Response :=
  Fetch req (fun o => match o with Rejected e => Throw e | Resolved r => Ret r end).

(** [await p] for a promise of the response body that is already
    settled by the environment. *)
Definition await_text (r : Response) : proc string :=
  match res_text r with inl e => Throw e | inr s => Ret s end.

End Proc.

#[global] Instance proc_ret : MRet proc := fun A a => Ret a.
#[global] Instance proc_bind : MBind proc := fun A B f p => Proc.bind p f.

(** ** Running a handler *)

(** The world a handler runs in: the state cells, the number of clock
    readings made so far, the pending timers and the console. *)
Record World : Type := mkWorld {
  st : AppState;
  ticks : nat;
  timers : list (Z * (AppState -> AppState));
  console_log : list (string * JsError)
}.

Inductive Outcome (R : Type) : Type :=
| Finished (r : R) (w : World)
| Failed (e : JsError) (w : World)
| Crashed (e : JsError) (w : World)
| Suspended (req : Request) (k : FetchOutcome -> proc R) (w : World).

Arguments Finished {R} r w.
Arguments Failed {R} e w.
Arguments Crashed {R} e w.
Arguments Suspended {R} req k w.

Definition upd (f : AppState -> AppState) (w : World) : World :=
  mkWorld (f (st w)) (ticks w) (timers w) (console_log w).
Definition tick (w : World) : World :=
  mkWorld (st w) (S (ticks w)) (timers w) (console_log w).
Definition arm (cb : AppState -> AppState) (d : Z) (w : World) : World :=
  mkWorld (st w) (ticks w) (timers w ++ [(d, cb)])%list (console_log w).
Definition logged (l : string) (e : JsError) (w : World) : World :=
  mkWorld (st w) (ticks w) (timers w) (console_log w ++ [(l, e)])%list.

Section Run.

(** The successive readings of [Date.now()]. *)
Variable clock : nat -> Z.

(** Run the synchronous part of [p]: up to its end, or up to the next
    request. A state setter is applied when it is called. *)
Fixpoint run {R} (p : proc R) (w : World) : Outcome R :=
  match p with
  | Ret r => Finished r w
  | Throw e => Failed e w
  | Crash e => Crashed e w
  | DateNow k => run (k (clock (ticks w))) (tick w)
  | SetState f k => run k (upd f w)
  | SetTimeout cb d k => run k (arm cb d w)
  | Console l e k => run k (logged l e w)
  | Fetch req k => Suspended req k w
  end.

(** Settle the pending request of a suspended handler with [o] and run
    on from the world [w] of that moment, which other handlers may have
    changed in the meantime. *)
Definition resume {R} (out : Outcome R) (o : FetchOutcome) (w : World) : Outcome R :=
  match out with
  | Suspended _ k _ => run (k o) w
  | _ => out
  end.

(** A click or a key press: the handler that the latest render created
    closes over the state of that render, and React has rendered the
    current state before it delivers the event. *)
Definition dispatch {R} (handler : AppState -> proc R) (w : World) : Outcome R :=
  run (handler (st w)) w.

End Run.

(** ** The application *)

Definition agent_rag : string := "agent_rag".
Definition agent_planner : string := "agent_planner".

(** A property read [m.k] inside a state updater: on [null] or
    [undefined] it raises a [TypeError] while React computes the state. *)
Definition read (m : jsval) (k : string) : proc jsval :=
  if nullish m
  then Crash (mkError "TypeError" ("Cannot read properties of null (reading '" ++ k ++ "')"))
  else Ret (prop m k).

Definition setMessages (f : list ChatMessage -> list ChatMessage) : proc unit :=
  Proc.setState (with_messages f).
Definition setInput (v : string) : proc unit := Proc.setState (with_input v).
Definition setAgentStatus (f : gmap string jsval -> gmap string jsval) : proc unit :=
  Proc.setState (with_agentStatus f).
Definition setIsSending (b : bool) : proc unit := Proc.setState (with_isSending b).

(** The state of the first render; [t0] and [t1] are the two readings of
    the clock that the initial [useState] argument makes.  The greeting of
    the planner is written with the ASCII apostrophe. *)
Definition initial_state (t0 t1 : Z) : AppState :=
  mkState
    [ mkMsg "m1" (JStr "agent") (JStr agent_rag)
        (JStr "Hello! I'm your RAG Researcher. Ask me anything and I'll fetch relevant knowledge to help us.")
        (JNum (t0 - 60000)) JUndefined;
      mkMsg "m2" (JStr "agent") (JStr agent_planner)
        (JStr "And I'm the MCP Planner! I'll organize steps and coordinate agents to build complete answers.")
        (JNum (t1 - 45000)) JUndefined ]
    EmptyString
    {[ agent_rag := JStr "idle"; agent_planner := JStr "idle" ]}
    false
    "light".

Definition ragReply : string :=
  "I searched our knowledge base and found related insights to your question.".
Definition plannerPlan : string :=
  "Here is a step-by-step plan: 1) Analyze 2) Retrieve 3) Synthesize 4) Validate.".
Definition plannerGeneric : string :=
  "I will coordinate the agents to craft a helpful reply.".

Definition helpful (text : string) : bool :=
  let lower := Str.toLowerCase text in
  Str.includes "plan" lower || Str.includes "how" lower.

Definition plannerReply (text : string) : string :=
  if helpful text then plannerPlan else plannerGeneric.

Definition ragContent (text : string) : string :=
  ragReply ++ " " ++ Str.dquote ++ Str.slice text 0 60 ++ Str.dquote.

(** The two entries of the simulated reply. *)
Definition ragEntry (text : string) : jsval :=
  JObj {[ "role" := JStr "agent";
          "agentId" := JStr agent_rag;
          "content" := JStr (ragContent text) ]}.

Definition plannerEntry (text : string) : jsval :=
  JObj {[ "role" := JStr "agent";
          "agentId" := JStr agent_planner;
          "content" := JStr (plannerReply text) ]}.

(** [simulateAgentResponse(text)] *)
Definition simulateAgentResponse (text : string) : jsval :=
  JObj {[
    "messages" := JArr [ragEntry text; plannerEntry text];
    "agentStatus" := JObj {[ agent_rag := JStr "responding";
                             agent_planner := JStr "thinking" ]}
  ]}.

Definition errorText : string :=
  "Oops! Something went wrong talking to the backend. Please check your connection and try again.".

Section App.

(** [process.env.REACT_APP_BACKEND_URL], when it is set. *)
Variable REACT_APP_BACKEND_URL : option string.

Definition API_BASE : string := default EmptyString REACT_APP_BACKEND_URL.

Definition sendRequest (text : string) : Request :=
  mkRequest (API_BASE ++ "/api/chat/message") "POST"
    [("Content-Type", "application/json")]
    (Some (JObj {[ "message" := JStr text ]})).

Definition statusRequest : Request :=
  mkRequest (API_BASE ++ "/api/chat/agents/status") "GET" [] None.

(** [sendMessageToBackend(text)] *)
Definition sendMessageToBackend (text : string) : proc jsval :=
  Proc.try_catch
    (res ← Proc.fetch (sendRequest text);
     if negb (res_ok res) then
       msg ← Proc.await_text res;
       Throw (mkError "Error"
                ("Backend error: " ++
                 (if String.eqb msg EmptyString then num_to_string (res_status res) else msg)))
     else
       Ret (js_or (default JNull (res_json res)) (simulateAgentResponse text)))
    (fun err => Proc.console "error" err;; Throw err).

(** [fetchAgentStatus()], in a render whose state is [view]. *)
Definition fetchAgentStatus (view : AppState) : proc jsval :=
  let fallback := JObj {[ "agentStatus" := JObj (agentStatus view) ]} in
  Proc.try_catch
    (res ← Proc.fetch statusRequest;
     if negb (res_ok res) then
       Throw (mkError "Error"
                ("Failed to fetch agent status: " ++ num_to_string (res_status res)))
     else
       Ret (js_or (default JNull (res_json res)) fallback))
    (fun e => Proc.console "warn" e;; Ret fallback).

(** The callback of [data.messages.map], entry [m] at index [idx], and
    the rest of the array after it. *)
Fixpoint map_entries (idx : nat) (l : list jsval) : proc (list ChatMessage) :=
  match l with
  | [] => Ret []
  | m :: rest =>
      t ← Proc.now;
      role_ ← read m "role";
      agentId_ ← read m "agentId";
      content_ ← read m "content";
      ts ← read m "timestamp";
      ts' ← (if truthy ts then Ret ts else (t' ← Proc.now; Ret (JNum t')));
      tl ← map_entries (S idx) rest;
      Ret (mkMsg ("a_" ++ num_to_string t ++ "_" ++ num_to_string (Z.of_nat idx))
             role_ agentId_ content_ ts' JUndefined :: tl)
  end.

Definition userMessage (text : string) (t_id t_ts : Z) : ChatMessage :=
  mkMsg ("u_" ++ num_to_string t_id) (JStr "user") JUndefined (JStr text) (JNum t_ts) JUndefined.

Definition errorMessage (t_id t_ts : Z) : ChatMessage :=
  mkMsg ("err_" ++ num_to_string t_id) (JStr "system") JUndefined (JStr errorText)
    (JNum t_ts) (JBool true).

(** The [try] block of [handleSend] after the [await]: the reply
    [data] is merged into the message store and the status map. *)
Definition apply_reply (data : jsval) : proc unit :=
  (match (if nullish data then JUndefined else prop data "messages") with
   | JArr l =>
       fresh ← map_entries 0 l;
       setMessages (fun prev => prev ++ fresh)%list
   | _ => Ret tt
   end);;
  let status := if nullish data then JUndefined else prop data "agentStatus" in
  if truthy status then
    setAgentStatus (fun prev => spread status ∪ prev)
  else
    setAgentStatus (fun _ => {[ agent_rag := JStr "responding"; agent_planner := JStr "thinking" ]});;
    Proc.setTimeout
      (with_agentStatus (fun _ => {[ agent_rag := JStr "idle"; agent_planner := JStr "idle" ]}))
      1200.

(** The [try] block of [handleSend]. *)
Definition on_reply (text : string) : proc unit :=
  data ← sendMessageToBackend text;
  apply_reply data.

(** The [catch] block of [handleSend]. *)
Definition on_error (err : JsError) : proc unit :=
  t_id ← Proc.now;
  t_ts ← Proc.now;
  setMessages (fun prev => (prev ++ [errorMessage t_id t_ts])%list);;
  setAgentStatus (fun _ => {[ agent_rag := JStr "error"; agent_planner := JStr "idle" ]}).

(** [handleSend()], in a render whose state is [view]. *)
Definition handleSend (view : AppState) : proc unit :=
  if negb (truthy (JStr (Str.trim (input view)))) || isSending view then Ret tt
  else
    t_id ← Proc.now;
    let text := Str.trim (input view) in
    t_ts ← Proc.now;
    let um := userMessage text t_id t_ts in
    setMessages (fun prev => (prev ++ [um])%list);;
    setInput EmptyString;;
    setIsSending true;;
    setAgentStatus (fun s => <[agent_planner := JStr "idle"]> (<[agent_rag := JStr "thinking"]> s));;
    Proc.try_finally
      (Proc.try_catch (on_reply text) on_error)
      (setIsSending false).

End App.

(** ** What the properties observe *)

Section Observations.

Variable backend : option string.
Variable clock : nat -> Z.

(** The request fails: the promise of [fetch] rejects, or the response
    has a status outside 200-299. *)
Definition request_fails (o : FetchOutcome) : bool :=
  match o with
  | Rejected _ => true
  | Resolved res => negb (res_ok res)
  end.

(** The error that [sendMessageToBackend] throws on a failed request. *)
Definition send_error (o : FetchOutcome) : JsError :=
  match o with
  | Rejected e => e
  | Resolved res =>
      match res_text res with
      | inl e => e
      | inr msg =>
          mkError "Error"
            ("Backend error: " ++
             (if String.eqb msg EmptyString then num_to_string (res_status res) else msg))
      end
  end.

(** What [res.json().catch(() => null)] resolves to. *)
Definition parsed (res : Response) : jsval := default JNull (res_json res).

Definition status_fallback (view : AppState) : jsval :=
  JObj {[ "agentStatus" := JObj (agentStatus view) ]}.

(** The guard of [handleSend] lets the call through. *)
Definition can_send (view : AppState) : Prop :=
  Str.trim (input view) <> EmptyString /\ isSending view = false.

(** The optimistic status that [handleSend] sets before its request, and
    the world when it reaches its [await]. *)
Definition optimistic (s : gmap string jsval) : gmap string jsval :=
  <[agent_planner := JStr "idle"]> (<[agent_rag := JStr "thinking"]> s).

Definition sending_world (text : string) (w : World) : World :=
  upd (with_agentStatus optimistic)
    (upd (with_isSending true)
       (upd (with_input EmptyString)
          (upd (with_messages
                  (fun prev => prev ++ [userMessage text (clock (ticks w)) (clock (S (ticks w)))])%list)
             (tick (tick w))))).

(** What is left of [handleSend] once the request is settled by [o]. *)
Definition after_await (text : string) (o : FetchOutcome) : proc unit :=
  Proc.try_finally
    (Proc.try_catch (settle (sendMessageToBackend backend text) o ≫= apply_reply) on_error)
    (setIsSending false).

(** The status map and the world after the [catch] and [finally]
    blocks. *)
Definition failed_status : gmap string jsval :=
  {[ agent_rag := JStr "error"; agent_planner := JStr "idle" ]}.

Definition failed_world (e : JsError) (w : World) : World :=
  upd (with_isSending false)
    (upd (with_agentStatus (fun _ => failed_status))
       (upd (with_messages
               (fun prev => prev ++ [errorMessage (clock (ticks w)) (clock (S (ticks w)))])%list)
          (tick (tick (logged "error" e w))))).

(** The chat entry made from the reply entry [m] at index [idx], when
    the clock has been read [t] times before. *)
Definition convert_entry (t idx : nat) (m : jsval) : ChatMessage :=
  mkMsg ("a_" ++ num_to_string (clock t) ++ "_" ++ num_to_string (Z.of_nat idx))
    (prop m "role") (prop m "agentId") (prop m "content")
    (if truthy (prop m "timestamp") then prop m "timestamp" else JNum (clock (S t)))
    JUndefined.

(** Clock readings that one entry costs: one for its id, one more when
    its timestamp is defaulted. *)
Definition entry_ticks (m : jsval) : nat :=
  if truthy (prop m "timestamp") then 1 else 2.

Fixpoint convert_entries (t idx : nat) (l : list jsval) : list ChatMessage :=
  match l with
  | [] => []
  | m :: rest => convert_entry t idx m :: convert_entries (entry_ticks m + t) (S idx) rest
  end.

Fixpoint entries_ticks (l : list jsval) : nat :=
  match l with
  | [] => 0
  | m :: rest => entries_ticks rest + entry_ticks m
  end.

Definition advance (n : nat) (w : World) : World :=
  mkWorld (st w) (n + ticks w) (timers w) (console_log w).

Definition readable (m : jsval) : Prop := nullish m = false.

(** The [messages] array and the [agentStatus] field of a reply, as
    [apply_reply] reads them. *)
Definition reply_entries (data : jsval) : list jsval :=
  match (if nullish data then JUndefined else prop data "messages") with
  | JArr l => l
  | _ => []
  end.

Definition reply_status (data : jsval) : jsval :=
  if nullish data then JUndefined else prop data "agentStatus".

Definition transient_status : gmap string jsval :=
  {[ agent_rag := JStr "responding"; agent_planner := JStr "thinking" ]}.

Definition idle_status : gmap string jsval :=
  {[ agent_rag := JStr "idle"; agent_planner := JStr "idle" ]}.

(** [w'] is [w] after the reply [data] has been merged. *)
Definition merged (data : jsval) (w w' : World) : Prop :=
  messages (st w') = (messages (st w) ++ convert_entries (ticks w) 0 (reply_entries data))%list /\
  agentStatus (st w') =
    (if truthy (reply_status data)
     then spread (reply_status data) ∪ agentStatus (st w)
     else transient_status) /\
  timers w' =
    (if truthy (reply_status data)
     then timers w
     else timers w ++ [(1200, with_agentStatus (fun _ => idle_status))])%list /\
  input (st w') = input (st w) /\
  isSending (st w') = isSending (st w) /\
  theme (st w') = theme (st w) /\
  ticks w' = (entries_ticks (reply_entries data) + ticks w)%nat /\
  console_log w' = console_log w.

End Observations.

(** ** Sample worlds and replies *)

Module Sample.

Definition clock (n : nat) : Z := 1000 + Z.of_nat n.

(** The user has typed a question and no send is in flight. *)
Definition typing : World :=
  mkWorld (with_input "  How do I plan this? " (initial_state 0 0)) 0 [] [].

(** The same world while its send is awaiting the backend. *)
Definition awaiting : World := sending_world clock "How do I plan this?" typing.

Definition offline : FetchOutcome := Rejected (mkError "TypeError" "Failed to fetch").

Definition reply_entry : jsval :=
  JObj {[ "role" := JStr "agent";
          "agentId" := JStr agent_planner;
          "content" := JStr "Step one.";
          "timestamp" := JNum 1700000000000 ]}.

Definition reply_status_map : gmap string jsval :=
  {[ agent_planner := JStr "responding" ]}.

Definition reply_payload : gmap string jsval :=
  {[ "messages" := JArr [reply_entry];
     "agentStatus" := JObj reply_status_map ]}.

Definition reply : Response :=
  mkResponse 200 (inr "{...}") (Some (JObj reply_payload)).

(** A 200 response whose body is the JSON text [false]. *)
Definition false_body : Response :=
  mkResponse 200 (inr "false") (Some (JBool false)).

(** A reply whose only entry is stamped with the epoch itself. *)
Definition epoch_entry : jsval :=
  JObj {[ "role" := JStr "agent";
          "agentId" := JStr agent_rag;
          "content" := JStr "Found it.";
          "timestamp" := JNum 0 ]}.

Definition epoch_reply : Response :=
  mkResponse 200 (inr "{...}") (Some (JObj {[ "messages" := JArr [epoch_entry] ]})).

End Sample.

(** The number of messages that settling a send with [o] appends. *)
Definition appended (text : string) (o : FetchOutcome) : nat :=
  match o with
  | Rejected _ => 1
  | Resolved res =>
      if res_ok res
      then length (reply_entries (js_or (parsed res) (simulateAgentResponse text)))
      else 1
  end.

(** ** White space at the ends of a string *)

Fixpoint all_white (s : string) : bool :=
  match s with
  | EmptyString => true
  | String c r => Str.isWhite c && all_white r
  end.

Definition head_white (s : string) : bool :=
  match s with
  | EmptyString => false
  | String c _ => Str.isWhite c
  end.

Fixpoint last_white (s : string) : bool :=
  match s with
  | EmptyString => false
  | String c EmptyString => Str.isWhite c
  | String _ r => last_white r
  end.

(** ** The other handlers *)


Definition with_theme (f : string -> string) (s : AppState) : AppState :=
  mkState (messages s) (input s) (agentStatus s) (isSending s) (f (theme s)).

Definition setTheme (f : string -> string) : proc unit := Proc.setState (with_theme f).

(** [toggleTheme()] *)
Definition toggleTheme : proc unit :=
  setTheme (fun t => if String.eqb t "light" then "dark" else "light").

(** What [onKeyDown] reads of a keyboard event. *)
Record KeyEvent : Type := mkKey { ev_key : string; ev_shiftKey : bool }.

(** [onKeyDown(e)], in a render whose state is [view]: whether
    [e.preventDefault()] is called, and the effects of the handler. *)
Definition onKeyDown (backend : option string) (view : AppState) (e : KeyEvent)
  : bool * proc unit :=
  if String.eqb (ev_key e) "Enter" && negb (ev_shiftKey e)
  then (true, handleSend backend view)
  else (false, Ret tt).

(** ** Presentation *)

(** A string with code units above 255, as its UTF-16 code units. *)
Definition units (s : string) : list N := N_of_ascii <$> list_ascii_of_string s.

(** [v === s] for a string literal [s] *)
Definition is_string (v : jsval) (s : string) : bool :=
  match v with
  | JStr t => String.eqb t s
  | _ => false
  end.

(** The theme tokens that the components below read. *)
Module themeTokens.
Definition primary : string := "#EC4899".
Definition secondary : string := "#8B5CF6".
Definition bubbleUser : string := "#EC4899".
Definition bubbleAgent : string := "#8B5CF6".
End themeTokens.

Record AgentDescriptor : Type := mkAgent {
  agent_id : string;
  agent_name : string;
  agent_color : string;
  agent_emoji : list N
}.

Definition EXAMPLE_AGENTS : list AgentDescriptor :=
  [ mkAgent agent_rag "RAG Researcher" themeTokens.secondary [55358; 56800]%N;
    mkAgent agent_planner "MCP Planner" themeTokens.primary [55357; 56826; 65039]%N ].

(** An agent descriptor with the status that the bar shows for it. *)
Record Pill : Type := mkPill { pill_agent : AgentDescriptor; pill_status : jsval }.

(** [statusData], for the status map of the render. *)
Definition statusData (status : gmap string jsval) : list Pill :=
  (fun a => mkPill a (js_or (default JUndefined (status !! agent_id a)) (JStr "idle")))
    <$> EXAMPLE_AGENTS.

(** What [AgentStatus] renders: the colour of the dot, its opacity as the
    style writes it, and the label. *)
Record StatusView : Type := mkStatusView {
  dot_color : string;
  dot_opacity : string;
  status_text : string
}.

Definition statusLabel (status : jsval) : string :=
  if is_string status "thinking" then "Thinking"
  else if is_string status "responding" then "Responding"
  else if is_string status "error" then "Error"
  else "Idle".

(** [AgentStatus({ status, color })] *)
Definition AgentStatus (status : jsval) (color : string) : StatusView :=
  mkStatusView color (if is_string status "idle" then "0.35" else "1") (statusLabel status).

Record PillView : Type := mkPillView {
  pv_key : string;
  pv_border : string;
  pv_emoji : list N;
  pv_name : string;
  pv_status : StatusView
}.

(** [AgentBar({ agents })] *)
Definition AgentBar (agents : list Pill) : list PillView :=
  (fun a =>
     mkPillView (agent_id (pill_agent a)) (agent_color (pill_agent a))
       (agent_emoji (pill_agent a)) (agent_name (pill_agent a))
       (AgentStatus (pill_status a) (agent_color (pill_agent a))))
    <$> agents.

(** [EXAMPLE_AGENTS.find((a) => a.id === v)] *)
Definition find_agent (v : jsval) : option AgentDescriptor :=
  List.find (fun a => is_string v (agent_id a)) EXAMPLE_AGENTS.

(** What [ChatBubble] renders: the alignment of the row and of the bubble,
    the background, the avatar (its colour and glyph) and the header (the
    glyph, when there is one, and the name) when they are shown, the text,
    and the instant handed to [new Date]. *)
Record Bubble : Type := mkBubble {
  row_justify : string;
  align_self : string;
  background : string;
  avatar : option (string * list N);
  header : option (option (list N) * string);
  bubble_text : jsval;
  bubble_time : jsval
}.

Definition robot : list N := [55358; 56598]%N.

(** [ChatBubble({ message })]; [now] is the reading of the clock that the
    time line falls back on. *)
Definition ChatBubble (now : Z) (message : ChatMessage) : Bubble :=
  let isUser := is_string (role message) "user" in
  let isAgent := is_string (role message) "agent" in
  let isSystem := is_string (role message) "system" in
  let meta := if isAgent then find_agent (agentId message) else None in
  mkBubble
    (if isUser then "flex-end" else "flex-start")
    (if isUser then "flex-end" else "flex-start")
    (if isUser then themeTokens.bubbleUser
     else if isAgent then themeTokens.bubbleAgent
     else "#ef4444")
    (if negb isUser && negb isSystem
     then Some (from_option agent_color themeTokens.secondary meta,
                from_option agent_emoji robot meta)
     else None)
    (if isAgent
     then Some (agent_emoji <$> meta, from_option agent_name "Agent" meta)
     else None)
    (content message)
    (js_or (timestamp message) (JNum now)).

(** What [Composer] renders. *)
Record ComposerView : Type := mkComposer {
  textarea_value : string;
  button_opacity : string;
  button_disabled : bool;
  button_label : list N
}.

(** [Composer({ value, isSending, ... })] *)
Definition Composer (value : string) (sending : bool) : ComposerView :=
  mkComposer value (if sending then "0.7" else "1") sending
    (if sending then (units "Sending" ++ [8230%N])%list else units "Send").

(** What [App] renders of its state: the agent bar, the keyed bubbles in
    store order, and the composer.  The header and the footer note, which
    show the theme toggle and a fixed tip, are left out. *)
Record Screen : Type := mkScreen {
  agent_bar : list PillView;
  chat : list (string * Bubble);
  composer : ComposerView
}.

Definition render (now : Z) (s : AppState) : Screen :=
  mkScreen
    (AgentBar (statusData (agentStatus s)))
    ((fun m => (id m, ChatBubble now m)) <$> messages s)
    (Composer (input s) (isSending s)).

(** ** The event loop *)

(** The running application: its world, the continuations of the sends
    that await the backend, and whether the component tree is torn down. *)
Record Sys : Type := mkSys {
  world : World;
  inflight : list (FetchOutcome -> proc unit);
  down : bool
}.

Inductive Event : Type :=
| Typed (v : string)
| Key (e : KeyEvent)
| ClickSend
| ClickTheme
| TimerFires
| Settles (i : nat) (o : FetchOutcome)
| ClockRead (n : nat).

(** The outcome of a handler, taken back into the loop.  A handler that
    fails is a rejected promise that nobody awaits. *)
Definition absorb (out : Outcome unit) (pending : list (FetchOutcome -> proc unit)) : Sys :=
  match out with
  | Finished _ w => mkSys w pending false
  | Failed _ w => mkSys w pending false
  | Crashed _ w => mkSys w pending true
  | Suspended _ k w => mkSys w (pending ++ [k])%list false
  end.

(** The oldest timer fires; all timers of the application have the same
    delay, so they fire in the order in which they were armed. *)
Definition fire (w : World) : option World :=
  match timers w with
  | [] => None
  | (_, cb) :: rest => Some (mkWorld (cb (st w)) (ticks w) rest (console_log w))
  end.

Section Loop.

Variable backend : option string.
Variable clock : nat -> Z.

(** One turn of the loop: the text area changes, a key goes down in it,
    the send button (disabled while sending) or the theme button is
    clicked, a timer fires, request [i] is settled, or rendering reads the
    clock [n] times.  A handler runs against the current state, as in
    [dispatch].  A torn-down tree reacts to nothing. *)
Definition step (s : Sys) (ev : Event) : Sys :=
  if down s then s
  else
    let w := world s in
    match ev with
    | Typed v => absorb (run clock (setInput v) w) (inflight s)
    | Key e => absorb (run clock (snd (onKeyDown backend (st w) e)) w) (inflight s)
    | ClickSend =>
        if button_disabled (Composer (input (st w)) (isSending (st w))) then s
        else absorb (dispatch clock (handleSend backend) w) (inflight s)
    | ClickTheme => absorb (run clock toggleTheme w) (inflight s)
    | TimerFires =>
        match fire w with
        | Some w' => mkSys w' (inflight s) false
        | None => s
        end
    | Settles i o =>
        match inflight s !! i with
        | Some k => absorb (run clock (k o) w) (delete i (inflight s))
        | None => s
        end
    | ClockRead n => mkSys (advance n w) (inflight s) false
    end.

Definition steps (s : Sys) (evs : list Event) : Sys := fold_left step evs s.

(** The application after its first render. *)
Definition boot : Sys :=
  mkSys (mkWorld (initial_state (clock 0) (clock 1)) 2 [] []) [] false.

(** The timer that [handleSend] arms. *)
Definition reset_timer : Z * (AppState -> AppState) :=
  (1200, with_agentStatus (fun _ => idle_status)).

(** While the tree is up: the in-flight flag is set exactly when one send
    awaits the backend, and then it is the only one; every pending timer
    is the status reset; both agents have a status. *)
Definition Inv (s : Sys) : Prop :=
  down s = false ->
  ((isSending (st (world s)) = false /\ inflight s = []) \/
   (isSending (st (world s)) = true /\
    exists text, inflight s = [after_await backend text])) /\
  Forall (fun t => t = reset_timer) (timers (world s)) /\
  is_Some (agentStatus (st (world s)) !! agent_rag) /\
  is_Some (agentStatus (st (world s)) !! agent_planner) /\
  (theme (st (world s)) = "light" \/ theme (st (world s)) = "dark").

End Loop.

(** ** More sample worlds, replies and sessions *)

Module More.

(** A reply with one entry and no status map. *)
Definition plain_reply : Response :=
  mkResponse 200 (inr "{...}")
    (Some (JObj {[ "messages" := JArr [Sample.reply_entry] ]})).

(** A 200 response without a body. *)
Definition empty_body : Response := mkResponse 200 (inr EmptyString) None.

Definition server_error : FetchOutcome :=
  Resolved (mkResponse 500 (inr "boom") None).

(** The user has typed while the reset of an earlier send is pending. *)
Definition stale : World :=
  mkWorld (st Sample.typing) 0 [reset_timer] [].

Definition enter : Event := Key (mkKey "Enter" false).

(** Type, send, fail, type again, send, and let the simulator answer. *)
Definition session : list Event :=
  [ Typed "how?"; enter; enter; Settles 0 Sample.offline; ClickTheme;
    Typed " plan B "; ClickSend; ClockRead 2; Settles 0 (Resolved empty_body);
    TimerFires ].

Definition greeting : ChatMessage :=
  mkMsg "m1" (JStr "agent") (JStr agent_rag) (JStr "Hello!") (JNum 1) JUndefined.

(** A reply of three entries: one stamped by the backend and carrying an
    id of its own, one stamped with [0], one without a timestamp. *)
Definition batch : list jsval :=
  [ JObj {[ "id" := JStr "server-7";
            "role" := JStr "agent";
            "agentId" := JStr agent_rag;
            "content" := JStr "Found it.";
            "timestamp" := JNum 1700000000000 ]};
    JObj {[ "role" := JStr "agent";
            "agentId" := JStr agent_planner;
            "content" := JStr "Step one.";
            "timestamp" := JNum 0 ]};
    JObj {[ "role" := JStr "user";
            "content" := JStr "echo" ]} ].

Definition batch_payload : gmap string jsval := {[ "messages" := JArr batch ]}.

Definition batch_reply : Response :=
  mkResponse 200 (inr "{...}") (Some (JObj batch_payload)).

End More.

(** * Properties *)

(** ** The runner is compositional *)

Section RunLemmas.

Variable clock : nat -> Z.

Lemma run_bind {A B} (p : proc A) (f : A -> proc B) (w : World) :
  run clock (p ≫= f) w =
  match run clock p w with
  | Finished r w' => run clock (f r) w'
  | Failed e w' => Failed e w'
  | Crashed e w' => Crashed e w'
  | Suspended req k w' => Suspended req (fun o => k o ≫= f) w'
  end.
Proof.
  revert w. induction p as [r|e|e|k IH|g k IH|cb d k IH|l e k IH|req k IH];
    intros w; simpl; auto.
Qed.

Lemma run_try_catch {A} (p : proc A) (h : JsError -> proc A) (w : World) :
  run clock (Proc.try_catch p h) w =
  match run clock p w with
  | Finished r w' => Finished r w'
  | Failed e w' => run clock (h e) w'
  | Crashed e w' => Crashed e w'
  | Suspended req k w' => Suspended req (fun o => Proc.try_catch (k o) h) w'
  end.
Proof.
  revert w. induction p as [r|e|e|k IH|g k IH|cb d k IH|l e k IH|req k IH];
    intros w; simpl; auto.
Qed.

Lemma run_try_finally {A} (p : proc A) (f : proc unit) (w : World) :
  run clock (Proc.try_finally p f) w =
  match run clock p w with
  | Finished r w' => run clock (f;; Ret r) w'
  | Failed e w' => run clock (f;; Throw e) w'
  | Crashed e w' => Crashed e w'
  | Suspended req k w' => Suspended req (fun o => Proc.try_finally (k o) f) w'
  end.
Proof.
  revert w. induction p as [r|e|e|k IH|g k IH|cb d k IH|l e k IH|req k IH];
    intros w; simpl; auto.
Qed.

Lemma run_now {A} (f : Z -> proc A) (w : World) :
  run clock (Proc.now ≫= f) w = run clock (f (clock (ticks w))) (tick w).
Proof. reflexivity. Qed.

Lemma run_ret {A B} (x : A) (f : A -> proc B) (w : World) :
  run clock (Ret x ≫= f) w = run clock (f x) w.
Proof. reflexivity. Qed.

End RunLemmas.

(** ** Strings *)

Section StrFacts.

Example toLowerCase_ascii : Str.toLowerCase "How do I PLAN this?" = "how do i plan this?".
Proof. reflexivity. Qed.

Example trim_both_ends : Str.trim "  hi there  " = "hi there" /\ Str.trim "   " = EmptyString.
Proof. split; reflexivity. Qed.

Example slice_clamps :
  Str.slice "abcdef" 0 3 = "abc" /\ Str.slice "ab" 0 60 = "ab" /\ Str.slice "abcdef" (-2) 60 = "ef".
Proof. repeat split; reflexivity. Qed.

Example includes_finds : Str.includes "how" "somehow" = true /\ Str.includes "plan" "pla n" = false.
Proof. split; reflexivity. Qed.

Example num_to_string_decimal :
  num_to_string 1700000000123 = "1700000000123" /\ num_to_string (-5) = "-5" /\ num_to_string 0 = "0".
Proof. repeat split; vm_compute; reflexivity. Qed.

Lemma append_cons (c : ascii) (a r : string) : String c a ++ r = String c (a ++ r).
Proof. reflexivity. Qed.

Lemma append_nil (r : string) : EmptyString ++ r = r.
Proof. reflexivity. Qed.

Lemma prefix_app (a s : string) :
  String.prefix a s = true <-> exists r, s = a ++ r.
Proof.
  revert s. induction a as [|c a IH]; intros s; simpl.
  - destruct s; split; eauto.
  - destruct s as [|d s]; simpl.
    + split; [discriminate | intros [r Hr]; discriminate].
    + destruct (ascii_dec c d) as [->|Hne].
      * rewrite IH. split; intros [r Hr]; exists r;
          rewrite append_cons in *; congruence.
      * split; [discriminate | intros [r Hr]; rewrite append_cons in Hr; congruence].
Qed.

(** [includes] decides substring occurrence. *)
Lemma includes_contains (sub s : string) :
  Str.includes sub s = true <-> Str.contains sub s.
Proof.
  unfold Str.contains. induction s as [|c s IH].
  - cbn [Str.includes]. rewrite orb_false_r, prefix_app. split.
    + intros [r Hr]. exists EmptyString, r. exact Hr.
    + intros [[|d pre] [post H]]; [eauto | discriminate].
  - cbn [Str.includes]. rewrite orb_true_iff, prefix_app, IH. split.
    + intros [[r Hr] | [pre [post H]]].
      * exists EmptyString, r. exact Hr.
      * exists (String c pre), post. rewrite append_cons. congruence.
    + intros [[|d pre] [post H]].
      * left. eauto.
      * right. exists pre, post. rewrite append_cons in H. congruence.
Qed.

Lemma includes_not_contains (sub s : string) :
  Str.includes sub s = false <-> ~ Str.contains sub s.
Proof.
  rewrite <- includes_contains. destruct (Str.includes sub s); split; congruence.
Qed.

Lemma substring_0_split (n : nat) (s : string) :
  exists rest, s = String.substring 0 n s ++ rest /\
               String.length (String.substring 0 n s) = Nat.min n (String.length s).
Proof.
  revert s. induction n as [|n IH]; intros s.
  - exists s. destruct s; split; reflexivity.
  - destruct s as [|c s].
    + exists EmptyString. split; reflexivity.
    + destruct (IH s) as [rest [H1 H2]]. exists rest. simpl. split.
      * rewrite append_cons. congruence.
      * now rewrite H2.
Qed.

(** [text.slice(0, 60)] is the string of the first 60 code units of
    [text], or all of [text] when it is shorter. *)
Lemma slice_0_60 (text : string) :
  Str.slice text 0 60 = String.substring 0 60 text.
Proof.
  unfold Str.slice, Str.clamp.
  change (0 <? 0) with false. change (60 <? 0) with false. cbv iota.
  rewrite (Z.min_l 0) by lia.
  destruct (Z.min 60 (Z.of_nat (String.length text)) <=? 0) eqn:E.
  - apply Z.leb_le in E.
    assert (String.length text = 0%nat) as H0 by lia.
    destruct text; [reflexivity | discriminate].
  - apply Z.leb_gt in E. rewrite Z.sub_0_r. change (Z.to_nat 0) with 0%nat.
    destruct (Z.min_spec 60 (Z.of_nat (String.length text))) as [[Hlt ->]|[Hle ->]].
    + reflexivity.
    + rewrite Nat2Z.id.
      assert (String.length text <= 60)%nat as Hlen by lia.
      clear - Hlen. revert Hlen. generalize 60%nat. 
      induction text as [|c t IH]; intros n Hn; simpl.
      * destruct n; reflexivity.
      * destruct n as [|n]; [simpl in Hn; lia|].
        simpl in Hn. f_equal. apply IH. lia.
Qed.

Lemma pretty_N_go_digits (x : N) (s : string) :
  Str.all_digits s = true -> Str.all_digits (pretty_N_go x s) = true.
Proof.
  revert s. induction (N.lt_wf_0 x) as [x _ IH]. intros s Hs.
  assert (x = 0 \/ 0 < x)%N as [->|Hpos] by lia.
  - now rewrite pretty_N_go_0.
  - rewrite pretty_N_go_step by exact Hpos. apply IH.
    + apply N.div_lt; lia.
    + cbn [Str.all_digits]. rewrite Hs, andb_true_r.
      unfold pretty_N_char. repeat case_match; reflexivity.
Qed.

Lemma index_digits (n : nat) : Str.all_digits (num_to_string (Z.of_nat n)) = true.
Proof.
  unfold num_to_string, pretty, pretty_Z.
  destruct (Z.of_nat n) as [|q|q] eqn:E; [reflexivity | | lia].
  unfold pretty, pretty_positive, pretty, pretty_N.
  case_decide; [reflexivity|]. now apply pretty_N_go_digits.
Qed.

Lemma digits_no_underscore (a b : string) :
  Str.all_digits (a ++ String "_"%char b) = false.
Proof.
  induction a as [|c a IH].
  - reflexivity.
  - rewrite append_cons. cbn [Str.all_digits]. rewrite IH. apply andb_false_r.
Qed.

Lemma last_segment (a b c d : string) :
  Str.all_digits c = true -> Str.all_digits d = true ->
  a ++ "_" ++ c = b ++ "_" ++ d -> c = d.
Proof.
  intros Hc Hd. revert b. induction a as [|x a IH]; intros [|y b] H;
    repeat (rewrite append_nil in H || rewrite append_cons in H);
    inversion H; subst.
  - reflexivity.
  - now rewrite digits_no_underscore in Hc.
  - now rewrite digits_no_underscore in Hd.
  - eauto.
Qed.

(** The last [_] splits a generated id into the part before it and the
    digits after it. *)
Lemma last_segment_both (a b c d : string) :
  Str.all_digits c = true -> Str.all_digits d = true ->
  a ++ "_" ++ c = b ++ "_" ++ d -> a = b /\ c = d.
Proof.
  intros Hc Hd. revert b. induction a as [|x a IH]; intros [|y b] H;
    repeat (rewrite append_nil in H || rewrite append_cons in H);
    inversion H; subst.
  - split; reflexivity.
  - now rewrite digits_no_underscore in Hc.
  - now rewrite digits_no_underscore in Hd.
  - destruct (IH b) as [-> ->]; [|split; reflexivity].
    now repeat (rewrite append_nil || rewrite append_cons).
Qed.

(** The id of a reply message determines the clock reading and the index
    it was made from. *)
Lemma reply_id_inj (z z' : Z) (j j' : nat) :
  "a_" ++ num_to_string z ++ "_" ++ num_to_string (Z.of_nat j)
  = "a_" ++ num_to_string z' ++ "_" ++ num_to_string (Z.of_nat j') ->
  z = z' /\ j = j'.
Proof.
  intros H. repeat (rewrite append_nil in H || rewrite append_cons in H).
  inversion H as [H'].
  change (String "_"%char ?x) with ("_" ++ x) in H'.
  apply last_segment_both in H'; try apply index_digits.
  destruct H' as [Hz Hj]. unfold num_to_string in Hz, Hj.
  apply (inj pretty) in Hz. apply (inj pretty) in Hj. split; [exact Hz | lia].
Qed.

(** It is the id of no greeting, user message or error message. *)
Lemma reply_id_kind (z : Z) (j : nat) (x : string) :
  let rid := "a_" ++ num_to_string z ++ "_" ++ num_to_string (Z.of_nat j) in
  rid <> "m1" /\ rid <> "m2" /\ rid <> "u_" ++ x /\ rid <> "err_" ++ x.
Proof.
  cbv zeta. repeat split; intros H;
    repeat (rewrite append_nil in H || rewrite append_cons in H); discriminate H.
Qed.

End StrFacts.

(** ** The response simulator *)

Section Simulator.

Lemma simulate_messages (text : string) :
  prop (simulateAgentResponse text) "messages" = JArr [ragEntry text; plannerEntry text].
Proof. reflexivity. Qed.

Lemma simulate_agentStatus (text : string) :
  prop (simulateAgentResponse text) "agentStatus" =
  JObj {[ agent_rag := JStr "responding"; agent_planner := JStr "thinking" ]}.
Proof. reflexivity. Qed.

Lemma simulate_truthy (text : string) : truthy (simulateAgentResponse text) = true.
Proof. reflexivity. Qed.

Lemma helpful_spec (text : string) :
  helpful text = true <->
  Str.contains "plan" (Str.toLowerCase text) \/ Str.contains "how" (Str.toLowerCase text).
Proof.
  unfold helpful. rewrite orb_true_iff, !includes_contains. reflexivity.
Qed.

(** C5. The planner-style reply of the simulator is chosen by keyword:
    when the lower-cased text contains "plan" or "how" it is the
    step-by-step template, which contains "Analyze"; otherwise it is the
    generic coordination template, which does not. "How do I plan this?"
    selects the first and "hello" the second. *)
Theorem simulator_planner_by_keyword :
  (forall text : string,
      let lower := Str.toLowerCase text in
      exists rag planner,
        prop (simulateAgentResponse text) "messages" = JArr [rag; planner] /\
        prop planner "agentId" = JStr agent_planner /\
        ((Str.contains "plan" lower \/ Str.contains "how" lower) ->
         prop planner "content" = JStr plannerPlan) /\
        (~ (Str.contains "plan" lower \/ Str.contains "how" lower) ->
         prop planner "content" = JStr plannerGeneric)) /\
  Str.contains "Analyze" plannerPlan /\
  ~ Str.contains "Analyze" plannerGeneric /\
  prop (plannerEntry "How do I plan this?") "content" = JStr plannerPlan /\
  prop (plannerEntry "hello") "content" = JStr plannerGeneric.
Proof.
  split; [|split; [|split; [|split]]].
  - intros text lower. exists (ragEntry text), (plannerEntry text).
    split; [apply simulate_messages|]. split; [reflexivity|].
    change (prop (plannerEntry text) "content") with (JStr (plannerReply text)).
    unfold plannerReply. split; intros H.
    + apply helpful_spec in H. now rewrite H.
    + destruct (helpful text) eqn:E; [|reflexivity].
      apply helpful_spec in E. contradiction.
  - apply includes_contains. reflexivity.
  - apply includes_not_contains. reflexivity.
  - reflexivity.
  - reflexivity.
Qed.

(** C6. The first message of the simulator is the research-style one,
    tagged [agent_rag], and its content contains [text.slice(0, 60)]:
    the first 60 code units of the input, or the whole input when it is
    shorter. *)
Theorem simulator_rag_echoes_input (text : string) :
  exists first rest c,
    prop (simulateAgentResponse text) "messages" = JArr (first :: rest) /\
    prop first "agentId" = JStr agent_rag /\
    prop first "content" = JStr c /\
    Str.contains (Str.slice text 0 60) c /\
    (exists tail, text = Str.slice text 0 60 ++ tail) /\
    String.length (Str.slice text 0 60) = Nat.min 60 (String.length text).
Proof.
  exists (ragEntry text), [plannerEntry text], (ragContent text).
  split; [apply simulate_messages|]. split; [reflexivity|]. split; [reflexivity|].
  split.
  - exists (ragReply ++ " " ++ Str.dquote), Str.dquote.
    reflexivity.
  - rewrite slice_0_60. destruct (substring_0_split 60 text) as [tail [H1 H2]].
    split; [exists tail; exact H1 | exact H2].
Qed.

End Simulator.

(** ** The backend client *)

Section Client.

Variable backend : option string.
Variable clock : nat -> Z.

Lemma send_suspends (text : string) (w : World) :
  run clock (sendMessageToBackend backend text) w =
  Suspended (sendRequest backend text) (settle (sendMessageToBackend backend text)) w.
Proof. reflexivity. Qed.

Lemma send_settled (text : string) (o : FetchOutcome) (w : World) :
  run clock (settle (sendMessageToBackend backend text) o) w =
  match o with
  | Resolved res =>
      if res_ok res
      then Finished (js_or (parsed res) (simulateAgentResponse text)) w
      else Failed (send_error o) (logged "error" (send_error o) w)
  | Rejected e => Failed e (logged "error" e w)
  end.
Proof.
  destruct o as [e|res]; [reflexivity|].
  cbn [settle sendMessageToBackend Proc.try_catch Proc.fetch mbind proc_bind Proc.bind].
  unfold send_error. destruct (res_ok res); [reflexivity|].
  cbn [negb]. unfold Proc.await_text. destruct (res_text res); reflexivity.
Qed.

Lemma send_settled_fails (text : string) (o : FetchOutcome) (w : World) :
  request_fails o = true ->
  run clock (settle (sendMessageToBackend backend text) o) w =
  Failed (send_error o) (logged "error" (send_error o) w).
Proof.
  intros H. rewrite send_settled. destruct o as [e|res]; [reflexivity|].
  simpl in H. apply negb_true_iff in H. now rewrite H.
Qed.

Lemma send_settled_ok (text : string) (res : Response) (w : World) :
  res_ok res = true ->
  run clock (settle (sendMessageToBackend backend text) (Resolved res)) w =
  Finished (js_or (parsed res) (simulateAgentResponse text)) w.
Proof. intros H. rewrite send_settled. now rewrite H. Qed.

(** [sendMessageToBackend] fails exactly when the request fails. *)
Lemma send_fails_iff (text : string) (o : FetchOutcome) (w : World) :
  (exists e w', run clock (settle (sendMessageToBackend backend text) o) w = Failed e w')
  <-> request_fails o = true.
Proof.
  split.
  - intros [e [w' H]]. rewrite send_settled in H.
    destruct o as [e0|res]; [reflexivity|]. simpl.
    destruct (res_ok res); [discriminate | reflexivity].
  - intros H. rewrite (send_settled_fails text o w H). eauto.
Qed.

Lemma status_suspends (view : AppState) (w : World) :
  run clock (fetchAgentStatus backend view) w =
  Suspended (statusRequest backend) (settle (fetchAgentStatus backend view)) w.
Proof. reflexivity. Qed.

Lemma status_settled (view : AppState) (o : FetchOutcome) (w : World) :
  run clock (settle (fetchAgentStatus backend view) o) w =
  match o with
  | Resolved res =>
      if res_ok res
      then Finished (js_or (parsed res) (status_fallback view)) w
      else Finished (status_fallback view)
             (logged "warn"
                (mkError "Error"
                   ("Failed to fetch agent status: " ++ num_to_string (res_status res))) w)
  | Rejected e => Finished (status_fallback view) (logged "warn" e w)
  end.
Proof.
  destruct o as [e|res]; [reflexivity|].
  cbn [settle fetchAgentStatus Proc.try_catch Proc.fetch mbind proc_bind Proc.bind].
  destruct (res_ok res); reflexivity.
Qed.

End Client.

(** ** The send controller *)

Section Controller.

Variable backend : option string.
Variable clock : nat -> Z.

Lemma guard_open (view : AppState) :
  can_send view ->
  negb (truthy (JStr (Str.trim (input view)))) || isSending view = false.
Proof.
  intros [Htxt Hidle]. rewrite Hidle, orb_false_r. simpl.
  rewrite negb_involutive. now apply String.eqb_neq.
Qed.

Lemma handleSend_suspends (view : AppState) (w : World) :
  can_send view ->
  run clock (handleSend backend view) w =
  Suspended (sendRequest backend (Str.trim (input view)))
    (after_await backend (Str.trim (input view)))
    (sending_world clock (Str.trim (input view)) w).
Proof.
  intros Hg. unfold handleSend. rewrite (guard_open view Hg). reflexivity.
Qed.

Lemma handleSend_closed (view : AppState) :
  isSending view = true -> handleSend backend view = Ret tt.
Proof.
  intros H. unfold handleSend. now rewrite H, orb_true_r.
Qed.

Lemma handleSend_blank (view : AppState) :
  Str.trim (input view) = EmptyString -> handleSend backend view = Ret tt.
Proof.
  intros H. unfold handleSend. now rewrite H.
Qed.

Lemma after_await_failure (text : string) (o : FetchOutcome) (w : World) :
  request_fails o = true ->
  run clock (after_await backend text o) w = Finished tt (failed_world clock (send_error o) w).
Proof.
  intros H. unfold after_await.
  rewrite run_try_finally, run_try_catch, run_bind, (send_settled_fails _ _ _ _ _ H).
  reflexivity.
Qed.

(** *** Merging a reply *)

Lemma run_read (m : jsval) (k : string) {A} (f : jsval -> proc A) (w : World) :
  readable m -> run clock (read m k ≫= f) w = run clock (f (prop m k)) w.
Proof. intros H. unfold read. now rewrite H. Qed.

Lemma run_map_entries (l : list jsval) :
  Forall readable l ->
  forall idx w,
    run clock (map_entries idx l) w =
    Finished (convert_entries clock (ticks w) idx l) (advance (entries_ticks l) w).
Proof.
  induction 1 as [|m rest Hm Hrest IH]; intros idx w.
  - destruct w; reflexivity.
  - cbn [map_entries]. rewrite run_now, !run_read by exact Hm.
    cbn [convert_entries entries_ticks]. unfold convert_entry, entry_ticks.
    destruct (truthy (prop m "timestamp")) eqn:Ets.
    + rewrite run_ret, run_bind, IH. cbn [run ticks tick]. f_equal.
      unfold advance, tick. destruct w; cbn. f_equal. lia.
    + rewrite run_bind, run_now. cbn [run]. rewrite run_bind, IH.
      cbn [run ticks tick]. f_equal.
      unfold advance, tick. destruct w; cbn. f_equal. lia.
Qed.

(** An entry that is [null] tears the component down. *)
Lemma run_map_entries_crash (l : list jsval) :
  Exists (fun m => nullish m = true) l ->
  forall idx w, exists e w', run clock (map_entries idx l) w = Crashed e w'.
Proof.
  induction l as [|m rest IH]; intros Hex idx w.
  - inversion Hex.
  - cbn [map_entries]. rewrite run_now.
    destruct (nullish m) eqn:Em.
    + unfold read. rewrite Em. cbn. eauto.
    + rewrite !run_read by exact Em.
      assert (Exists (fun m => nullish m = true) rest) as Hrest.
      { inversion Hex; subst; [congruence | assumption]. }
      destruct (truthy (prop m "timestamp")).
      * rewrite run_ret, run_bind.
        destruct (IH Hrest (S idx) (tick w)) as [e [w' ->]]. eauto.
      * rewrite run_bind, run_now. cbn [run]. rewrite run_bind.
        destruct (IH Hrest (S idx) (tick (tick w))) as [e [w' ->]]. eauto.
Qed.

Lemma convert_entries_length (l : list jsval) (t idx : nat) :
  length (convert_entries clock t idx l) = length l.
Proof.
  revert t idx. induction l as [|m rest IH]; intros t idx; simpl; [reflexivity|].
  now rewrite IH.
Qed.

(** Entry [i] of the array becomes entry [i] of the batch, with index
    [i] in its id and a clock that is read at that time. *)
Lemma convert_entries_lookup (l : list jsval) (t idx i : nat) (m : jsval) :
  l !! i = Some m ->
  exists t', (t <= t')%nat /\
    convert_entries clock t idx l !! i = Some (convert_entry clock t' (idx + i) m).
Proof.
  revert t idx i. induction l as [|m0 rest IH]; intros t idx i Hi; [discriminate|].
  destruct i as [|i]; simpl in Hi.
  - inversion Hi; subst. exists t. split; [lia|]. simpl. now rewrite Nat.add_0_r.
  - destruct (IH (entry_ticks m0 + t)%nat (S idx) i Hi) as [t' [Hle Hlk]].
    exists t'. split; [lia|]. simpl. rewrite Hlk. do 2 f_equal. lia.
Qed.

Lemma convert_entries_elem (l : list jsval) (t idx : nat) (cm : ChatMessage) :
  cm ∈ convert_entries clock t idx l ->
  exists t' j m, (idx <= j)%nat /\ cm = convert_entry clock t' j m.
Proof.
  revert t idx. induction l as [|m0 rest IH]; intros t idx Hin; simpl in Hin.
  - now apply elem_of_nil in Hin.
  - apply elem_of_cons in Hin. destruct Hin as [->|Hin].
    + exists t, idx, m0. split; [lia | reflexivity].
    + destruct (IH _ _ Hin) as [t' [j [m [Hj ->]]]].
      exists t', j, m. split; [lia | reflexivity].
Qed.

(** The index is recoverable from a generated id. *)
Lemma convert_entry_id_inj (t t' i j : nat) (m m' : jsval) :
  id (convert_entry clock t i m) = id (convert_entry clock t' j m') -> i = j.
Proof.
  unfold convert_entry. cbn [id]. intros H.
  repeat (rewrite append_nil in H || rewrite append_cons in H).
  inversion H as [H'].
  change (String "_"%char ?x) with ("_" ++ x) in H'.
  apply last_segment in H'; try apply index_digits.
  apply (inj pretty) in H'. lia.
Qed.

(** The ids of one batch are pairwise distinct. *)
Lemma convert_entries_NoDup (l : list jsval) (t idx : nat) :
  NoDup (id <$> convert_entries clock t idx l).
Proof.
  revert t idx. induction l as [|m rest IH]; intros t idx; cbn [convert_entries].
  - constructor.
  - rewrite fmap_cons. apply NoDup_cons. split; [|apply IH].
    intros Hin. apply list_elem_of_fmap in Hin. destruct Hin as [cm [Hid Hcm]].
    apply convert_entries_elem in Hcm. destruct Hcm as [t' [j [m' [Hj ->]]]].
    apply convert_entry_id_inj in Hid. lia.
Qed.

Lemma run_apply_status (status : jsval) (w : World) :
  run clock
    (if truthy status then
       setAgentStatus (fun prev => spread status ∪ prev)
     else
       setAgentStatus (fun _ => transient_status);;
       Proc.setTimeout (with_agentStatus (fun _ => idle_status)) 1200) w =
  Finished tt
    (if truthy status
     then upd (with_agentStatus (fun prev => spread status ∪ prev)) w
     else arm (with_agentStatus (fun _ => idle_status)) 1200
            (upd (with_agentStatus (fun _ => transient_status)) w)).
Proof. destruct (truthy status); reflexivity. Qed.

Lemma run_apply_reply (data : jsval) (w : World) :
  Forall readable (reply_entries data) ->
  exists w', run clock (apply_reply data) w = Finished tt w' /\ merged clock data w w'.
Proof.
  intros Hread. unfold apply_reply. rewrite run_bind.
  fold (reply_status data). fold transient_status. fold idle_status.
  unfold reply_entries in Hread. unfold merged, reply_entries.
  destruct (if nullish data then JUndefined else prop data "messages")
    as [| |b|n|s|l|o];
    try (cbn [run]; rewrite run_apply_status; eexists; split; [reflexivity|];
         destruct (truthy (reply_status data)); cbn;
         rewrite ?app_nil_r; repeat split; reflexivity).
  rewrite run_bind, (run_map_entries l Hread). cbn [run setMessages Proc.setState].
  rewrite run_apply_status. eexists; split; [reflexivity|].
  destruct (truthy (reply_status data)); cbn; repeat split; reflexivity.
Qed.

(** A successful reply is merged and the in-flight flag is cleared. *)
Lemma after_await_success (text : string) (res : Response) (w : World) :
  res_ok res = true ->
  let data := js_or (parsed res) (simulateAgentResponse text) in
  Forall readable (reply_entries data) ->
  exists w',
    run clock (after_await backend text (Resolved res)) w =
    Finished tt (upd (with_isSending false) w') /\
    merged clock data w w'.
Proof.
  intros Hok data Hread. unfold after_await.
  rewrite run_try_finally, run_try_catch, run_bind, (send_settled_ok _ _ _ _ _ Hok).
  fold data. destruct (run_apply_reply data w Hread) as [w' [-> Hm]].
  exists w'. split; [reflexivity | exact Hm].
Qed.

(** A reply with a [null] entry: the update of the message store fails
    while React computes it. *)
Lemma after_await_crash (text : string) (res : Response) (w : World) :
  res_ok res = true ->
  Exists (fun m => nullish m = true)
    (reply_entries (js_or (parsed res) (simulateAgentResponse text))) ->
  exists e w', run clock (after_await backend text (Resolved res)) w = Crashed e w'.
Proof.
  intros Hok Hex. unfold after_await.
  rewrite run_try_finally, run_try_catch, run_bind, (send_settled_ok _ _ _ _ _ Hok).
  unfold apply_reply. rewrite run_bind. unfold reply_entries in Hex.
  destruct (if nullish _ then JUndefined else prop _ "messages")
    as [| |b|n|s|l|o]; try (inversion Hex; fail).
  rewrite run_bind. destruct (run_map_entries_crash l Hex 0%nat w) as [e [w' ->]].
  eauto.
Qed.

End Controller.

(** ** Status maps *)

Section StatusMaps.

Lemma failed_status_lookup (k : string) (v : jsval) :
  failed_status !! k = Some v ->
  (k = agent_rag /\ v = JStr "error") \/ (k = agent_planner /\ v = JStr "idle").
Proof.
  unfold failed_status. intros H.
  apply lookup_insert_Some in H. destruct H as [[<- <-]|[_ H]]; [left; auto|].
  apply lookup_singleton_Some in H. destruct H as [<- <-]. right; auto.
Qed.

Lemma failed_status_other (k : string) :
  k <> agent_rag -> k <> agent_planner -> failed_status !! k = None.
Proof.
  intros H1 H2. unfold failed_status.
  rewrite lookup_insert_ne by congruence. apply lookup_singleton_ne. congruence.
Qed.

(** [{...prev, ...payload}]: the payload wins on its keys, the other
    keys keep their value. *)
Lemma merge_present (payload prev : gmap string jsval) (k : string) (v : jsval) :
  payload !! k = Some v -> (payload ∪ prev) !! k = Some v.
Proof. intros H. now apply lookup_union_Some_l. Qed.

Lemma merge_absent (payload prev : gmap string jsval) (k : string) :
  payload !! k = None -> (payload ∪ prev) !! k = prev !! k.
Proof. intros H. now apply lookup_union_r. Qed.

End StatusMaps.

(** * The claims of the specification *)

Section Claims.

Variable backend : option string.
Variable clock : nat -> Z.

(** C1. With non-blank input and no send in flight, [handleSend] runs
    up to its request to the backend and is suspended there: at that
    point the message store is the old one followed by exactly one
    message, of role [user] and with the trimmed input as content, the
    input buffer is empty and the in-flight flag is set. *)
Theorem handleSend_appends_user_message (w : World) :
  Str.trim (input (st w)) <> EmptyString ->
  isSending (st w) = false ->
  exists k w' um,
    dispatch clock (handleSend backend) w =
      Suspended (sendRequest backend (Str.trim (input (st w)))) k w' /\
    messages (st w') = (messages (st w) ++ [um])%list /\
    role um = JStr "user" /\
    content um = JStr (Str.trim (input (st w))) /\
    input (st w') = EmptyString /\
    isSending (st w') = true.
Proof.
  intros Htxt Hidle. unfold dispatch.
  rewrite handleSend_suspends by (split; assumption).
  eexists _, _, _. split; [reflexivity|]. repeat split; reflexivity.
Qed.

(** C2. While a send is in flight, [handleSend] is the empty program:
    it has no effect at all, so it issues no request and arms no timer,
    and running it leaves the world, with its message store, input
    buffer and status map, as it was. *)
Theorem handleSend_ignored_while_sending (w : World) :
  isSending (st w) = true ->
  handleSend backend (st w) = Ret tt /\
  dispatch clock (handleSend backend) w = Finished tt w.
Proof.
  intros H. unfold dispatch. rewrite (handleSend_closed backend (st w) H).
  split; reflexivity.
Qed.

(** C3. When [sendMessageToBackend] fails on the outcome [o] of the
    request, the suspended [handleSend] finishes, whatever the world [w]
    has become meanwhile: it appends exactly one message, of role
    [system] with [error: true] and the fixed text, sets [agent_rag] to
    [error] and [agent_planner] to [idle], and leaves no status
    [thinking] or [responding] in the map. *)
Theorem handleSend_failure_reports_error
    (w0 : World) (o : FetchOutcome) (w : World) (e : JsError) (w1 : World) :
  Str.trim (input (st w0)) <> EmptyString ->
  isSending (st w0) = false ->
  run clock (settle (sendMessageToBackend backend (Str.trim (input (st w0)))) o) w
    = Failed e w1 ->
  exists w' em,
    resume clock (dispatch clock (handleSend backend) w0) o w = Finished tt w' /\
    messages (st w') = (messages (st w) ++ [em])%list /\
    role em = JStr "system" /\
    error em = JBool true /\
    content em = JStr errorText /\
    agentStatus (st w') !! agent_rag = Some (JStr "error") /\
    agentStatus (st w') !! agent_planner = Some (JStr "idle") /\
    (forall k v, agentStatus (st w') !! k = Some v ->
                 v <> JStr "thinking" /\ v <> JStr "responding") /\
    isSending (st w') = false.
Proof.
  intros Htxt Hidle Hfail. unfold dispatch.
  rewrite handleSend_suspends by (split; assumption). cbn [resume].
  assert (request_fails o = true) as Hreq.
  { apply (send_fails_iff backend clock (Str.trim (input (st w0))) o w). eauto. }
  rewrite (after_await_failure backend clock _ o w Hreq).
  exists (failed_world clock (send_error o) w),
         (errorMessage (clock (ticks w)) (clock (S (ticks w)))).
  split; [reflexivity|]. do 6 (split; [reflexivity|]). split; [|reflexivity].
  intros k v Hk. change (failed_status !! k = Some v) in Hk.
  apply failed_status_lookup in Hk.
  destruct Hk as [[_ ->]|[_ ->]]; split; discriminate.
Qed.

(** C4. When the request succeeds with a payload that carries an
    [agentStatus] map, the suspended [handleSend] finishes with the map
    merged into the status map: a key of the payload takes the payload's
    value, any other key keeps the value it had. *)
Theorem handleSend_merges_agentStatus
    (w0 : World) (res : Response) (payload pm : gmap string jsval) (w : World) :
  Str.trim (input (st w0)) <> EmptyString ->
  isSending (st w0) = false ->
  res_ok res = true ->
  res_json res = Some (JObj payload) ->
  payload !! "agentStatus" = Some (JObj pm) ->
  Forall readable (reply_entries (JObj payload)) ->
  exists w',
    resume clock (dispatch clock (handleSend backend) w0) (Resolved res) w = Finished tt w' /\
    agentStatus (st w') = pm ∪ agentStatus (st w) /\
    (forall k v, pm !! k = Some v -> agentStatus (st w') !! k = Some v) /\
    (forall k, pm !! k = None -> agentStatus (st w') !! k = agentStatus (st w) !! k).
Proof.
  intros Htxt Hidle Hok Hjson Hst Hread. unfold dispatch.
  rewrite handleSend_suspends by (split; assumption). cbn [resume].
  assert (js_or (parsed res) (simulateAgentResponse (Str.trim (input (st w0)))) = JObj payload)
    as Hdata by (unfold parsed; now rewrite Hjson).
  destruct (after_await_success backend clock (Str.trim (input (st w0))) res w Hok)
    as [w' [Hrun Hm]]; [now rewrite Hdata|].
  rewrite Hdata in Hm. destruct Hm as (_ & Hstatus & _).
  assert (reply_status (JObj payload) = JObj pm) as Hrs
    by (unfold reply_status; cbn; now rewrite Hst).
  rewrite Hrs in Hstatus. cbn in Hstatus.
  exists (upd (with_isSending false) w'). split; [exact Hrun|].
  cbn. rewrite Hstatus. split; [reflexivity|]. split.
  - intros k v. apply merge_present.
  - intros k. apply merge_absent.
Qed.

(** C7. [fetchAgentStatus] issues its GET and, however the request is
    settled, finishes with a value and never with an error; the state is
    untouched. When the request is rejected, or the status is outside
    200-299, or the body does not parse, the value is [{ agentStatus }]
    with the status map of the render that created the function. *)
Theorem fetchAgentStatus_falls_back
    (view : AppState) (w0 : World) (o : FetchOutcome) (w : World) :
  exists k v w',
    run clock (fetchAgentStatus backend view) w0 = Suspended (statusRequest backend) k w0 /\
    run clock (k o) w = Finished v w' /\
    st w' = st w /\
    ((request_fails o = true \/ exists res, o = Resolved res /\ res_json res = None) ->
     v = JObj {[ "agentStatus" := JObj (agentStatus view) ]} /\
     prop v "agentStatus" = JObj (agentStatus view)).
Proof.
  exists (settle (fetchAgentStatus backend view)).
  assert (prop (status_fallback view) "agentStatus" = JObj (agentStatus view)) as Hprop.
  { unfold status_fallback, prop. now rewrite lookup_singleton_eq. }
  destruct o as [e|res].
  - eexists _, _. split; [apply status_suspends|].
    rewrite status_settled. split; [reflexivity|]. split; [reflexivity|].
    intros _. split; [reflexivity | exact Hprop].
  - destruct (res_ok res) eqn:Hok.
    + eexists _, _. split; [apply status_suspends|].
      rewrite status_settled, Hok. split; [reflexivity|]. split; [reflexivity|].
      intros [Hf | [res' [Heq Hnone]]].
      * simpl in Hf. rewrite Hok in Hf. discriminate.
      * inversion Heq; subst res'. unfold parsed. rewrite Hnone.
        split; [reflexivity | exact Hprop].
    + eexists _, _. split; [apply status_suspends|].
      rewrite status_settled, Hok. split; [reflexivity|]. split; [reflexivity|].
      intros _. split; [reflexivity | exact Hprop].
Qed.

(** C8, as amended. On a response with a status in 200-299,
    [sendMessageToBackend] returns the parsed body when that is truthy,
    and the simulator's output for the same text otherwise: when the
    body does not parse, and also when it parses to [null], [false], [0]
    or the empty string. *)
Theorem send_success_payload_or_simulated
    (text : string) (res : Response) (w : World) :
  res_ok res = true ->
  exists data,
    run clock (settle (sendMessageToBackend backend text) (Resolved res)) w = Finished data w /\
    (truthy (parsed res) = true -> data = parsed res) /\
    (truthy (parsed res) = false -> data = simulateAgentResponse text) /\
    (truthy (parsed res) = false <->
       res_json res = None \/
       exists v, res_json res = Some v /\
         (v = JNull \/ v = JUndefined \/ v = JBool false \/ v = JNum 0 \/ v = JStr EmptyString)).
Proof.
  intros Hok. eexists. split; [apply send_settled_ok; exact Hok|].
  unfold js_or. split; [intros Ht; now rewrite Ht|]. split; [intros Ht; now rewrite Ht|].
  unfold parsed. destruct (res_json res) as [v|]; cbn [default]; split.
  - intros Hv. right. exists v. split; [reflexivity|].
    destruct v as [| |[]|n|s|l|o]; simpl in Hv; try discriminate; auto.
    + apply negb_false_iff, Z.eqb_eq in Hv. subst. auto.
    + apply negb_false_iff, String.eqb_eq in Hv. subst. auto 6.
  - intros [Hn | [v' [Hv' Hcase]]]; [discriminate|].
    inversion Hv'; subst v'.
    destruct Hcase as [-> | [-> | [-> | [-> | ->]]]]; reflexivity.
  - auto.
  - reflexivity.
Qed.

(** C9, as amended. On a successful reply whose [messages] is an array
    without a [null] entry, the suspended [handleSend] finishes with one
    new message per entry appended in order. Message [i] has the entry's
    role, agent id and content and a freshly generated id: the handler
    makes it as [a_<now>_<i>] from a reading of the clock and the index,
    whatever the entry holds; the ids of the batch are pairwise distinct,
    an id of this form comes from no other reading or index, and it is
    the id of no stored greeting, user message or error message and of no
    stored reply made at another reading.  The timestamp is the entry's
    when that is truthy, and the next reading of the clock when it is
    absent or falsy ([0], [null], [false], the empty string). *)
Theorem handleSend_appends_reply_entries
    (w0 : World) (res : Response) (payload : gmap string jsval)
    (entries : list jsval) (w : World) :
  Str.trim (input (st w0)) <> EmptyString ->
  isSending (st w0) = false ->
  res_ok res = true ->
  res_json res = Some (JObj payload) ->
  payload !! "messages" = Some (JArr entries) ->
  Forall readable entries ->
  exists w' fresh,
    resume clock (dispatch clock (handleSend backend) w0) (Resolved res) w = Finished tt w' /\
    messages (st w') = (messages (st w) ++ fresh)%list /\
    length fresh = length entries /\
    NoDup (id <$> fresh) /\
    forall i m,
      entries !! i = Some m ->
      exists cm t,
        fresh !! i = Some cm /\
        (ticks w <= t)%nat /\
        id cm = "a_" ++ num_to_string (clock t) ++ "_" ++ num_to_string (Z.of_nat i) /\
        (forall z j,
            id cm = "a_" ++ num_to_string z ++ "_" ++ num_to_string (Z.of_nat j) ->
            z = clock t /\ j = i) /\
        (forall old,
            old ∈ messages (st w) ->
            id old = "m1" \/ id old = "m2" \/
            (exists x, id old = "u_" ++ x) \/ (exists x, id old = "err_" ++ x) \/
            (exists z j,
                id old = "a_" ++ num_to_string z ++ "_" ++ num_to_string (Z.of_nat j) /\
                z <> clock t) ->
            id old <> id cm) /\
        role cm = prop m "role" /\
        agentId cm = prop m "agentId" /\
        content cm = prop m "content" /\
        (truthy (prop m "timestamp") = true -> timestamp cm = prop m "timestamp") /\
        (truthy (prop m "timestamp") = false -> timestamp cm = JNum (clock (S t))).
Proof.
  intros Htxt Hidle Hok Hjson Hmsgs Hread. unfold dispatch.
  rewrite handleSend_suspends by (split; assumption). cbn [resume].
  assert (js_or (parsed res) (simulateAgentResponse (Str.trim (input (st w0)))) = JObj payload)
    as Hdata by (unfold parsed; now rewrite Hjson).
  assert (reply_entries (JObj payload) = entries) as Hre
    by (unfold reply_entries; cbn; now rewrite Hmsgs).
  destruct (after_await_success backend clock (Str.trim (input (st w0))) res w Hok)
    as [w' [Hrun Hm]]; [now rewrite Hdata, Hre|].
  rewrite Hdata in Hm. unfold merged in Hm. rewrite Hre in Hm. destruct Hm as (Hmsg & _).
  exists (upd (with_isSending false) w'), (convert_entries clock (ticks w) 0 entries).
  split; [exact Hrun|]. split; [exact Hmsg|].
  split; [apply convert_entries_length|]. split; [apply convert_entries_NoDup|].
  intros i m Hi.
  destruct (convert_entries_lookup clock entries (ticks w) 0 i m Hi) as [t [Hle Hlk]].
  exists (convert_entry clock t i m), t. split; [exact Hlk|]. split; [exact Hle|].
  assert (id (convert_entry clock t i m)
          = "a_" ++ num_to_string (clock t) ++ "_" ++ num_to_string (Z.of_nat i))
    as Hid by reflexivity.
  split; [exact Hid|]. split; [|split].
  - intros z j Hz. rewrite Hid in Hz. apply reply_id_inj in Hz.
    destruct Hz as [Hz Hj]. split; congruence.
  - intros old _ Hkind. rewrite Hid.
    destruct Hkind as [H|[H|[[x H]|[[x H]|(z & j & H & Hne)]]]]; rewrite H; intros E.
    + now apply (reply_id_kind (clock t) i EmptyString).
    + now apply (reply_id_kind (clock t) i EmptyString).
    + now apply (reply_id_kind (clock t) i x).
    + now apply (reply_id_kind (clock t) i x).
    + apply reply_id_inj in E. destruct E as [E _]. contradiction.
  - unfold convert_entry. cbn.
    split; [reflexivity|]. split; [reflexivity|]. split; [reflexivity|].
    split; intros Ht; now rewrite Ht.
Qed.

(** C10. On a failed send the status map becomes exactly
    [{agent_rag: 'error', agent_planner: 'idle'}]: a key other than
    these two is absent afterwards, whatever it held before. On a
    successful send with a status map, a key that the payload does not
    mention keeps its value. *)
Theorem handleSend_failure_replaces_status (w0 : World) :
  Str.trim (input (st w0)) <> EmptyString ->
  isSending (st w0) = false ->
  (forall o w e w1,
      run clock (settle (sendMessageToBackend backend (Str.trim (input (st w0)))) o) w
        = Failed e w1 ->
      exists w',
        resume clock (dispatch clock (handleSend backend) w0) o w = Finished tt w' /\
        agentStatus (st w') =
          {[ agent_rag := JStr "error"; agent_planner := JStr "idle" ]} /\
        forall k, k <> agent_rag -> k <> agent_planner ->
                  agentStatus (st w') !! k = None) /\
  (forall res payload pm w,
      res_ok res = true ->
      res_json res = Some (JObj payload) ->
      payload !! "agentStatus" = Some (JObj pm) ->
      Forall readable (reply_entries (JObj payload)) ->
      exists w',
        resume clock (dispatch clock (handleSend backend) w0) (Resolved res) w = Finished tt w' /\
        forall k, pm !! k = None ->
                  agentStatus (st w') !! k = agentStatus (st w) !! k).
Proof.
  intros Htxt Hidle. unfold dispatch.
  rewrite handleSend_suspends by (split; assumption). cbn [resume]. split.
  - intros o w e w1 Hfail.
    assert (request_fails o = true) as Hreq.
    { apply (send_fails_iff backend clock (Str.trim (input (st w0))) o w). eauto. }
    rewrite (after_await_failure backend clock _ o w Hreq).
    eexists. split; [reflexivity|]. split; [reflexivity|].
    intros k H1 H2. cbn. now apply failed_status_other.
  - intros res payload pm w Hok Hjson Hst Hread.
    assert (js_or (parsed res) (simulateAgentResponse (Str.trim (input (st w0)))) = JObj payload)
      as Hdata by (unfold parsed; now rewrite Hjson).
    destruct (after_await_success backend clock (Str.trim (input (st w0))) res w Hok)
      as [w' [Hrun Hm]]; [now rewrite Hdata|].
    rewrite Hdata in Hm. destruct Hm as (_ & Hstatus & _).
    assert (reply_status (JObj payload) = JObj pm) as Hrs
      by (unfold reply_status; cbn; now rewrite Hst).
    rewrite Hrs in Hstatus. cbn in Hstatus.
    exists (upd (with_isSending false) w'). split; [exact Hrun|].
    intros k Hk. cbn. rewrite Hstatus. now apply merge_absent.
Qed.

End Claims.

(** * Concrete runs *)

Section Runs.

Import Sample.

(** With no usable body the simulator answers: the store ends with the
    user message and the two simulated entries, and the status map is the
    simulator's. *)
Example send_with_simulated_reply :
  exists w',
    resume clock (dispatch clock (handleSend None) typing)
      (Resolved (mkResponse 200 (inr EmptyString) None)) awaiting = Finished tt w' /\
    id <$> messages (st w') = ["m1"; "m2"; "u_1000"; "a_1002_0"; "a_1004_1"] /\
    timestamp <$> messages (st w') =
      [JNum (-60000); JNum (-45000); JNum 1001; JNum 1003; JNum 1005] /\
    map_to_list (agentStatus (st w')) =
      [(agent_rag, JStr "responding"); (agent_planner, JStr "thinking")] /\
    isSending (st w') = false /\
    timers w' = [].
Proof.
  eexists. split; [reflexivity|]. vm_compute. repeat split; reflexivity.
Qed.

(** A reply of three entries: the id that the first entry brings is
    dropped, the timestamps [0] and absent are replaced by the clock, and
    each defaulted timestamp costs the next entry one more reading. *)
Example send_with_batch :
  exists w',
    resume clock (dispatch clock (handleSend None) typing)
      (Resolved More.batch_reply) awaiting = Finished tt w' /\
    id <$> messages (st w') = ["m1"; "m2"; "u_1000"; "a_1002_0"; "a_1003_1"; "a_1005_2"] /\
    timestamp <$> drop 3 (messages (st w')) =
      [JNum 1700000000000; JNum 1004; JNum 1006] /\
    role <$> drop 3 (messages (st w')) = [JStr "agent"; JStr "agent"; JStr "user"] /\
    agentId <$> drop 3 (messages (st w')) =
      [JStr agent_rag; JStr agent_planner; JUndefined].
Proof.
  eexists. split; [reflexivity|]. vm_compute. repeat split; reflexivity.
Qed.

(** A [null] entry in the reply is not survivable. *)
Example send_with_null_entry :
  exists e w',
    resume clock (dispatch clock (handleSend None) typing)
      (Resolved (mkResponse 200 (inr EmptyString)
                   (Some (JObj {[ "messages" := JArr [JNull] ]})))) awaiting
    = Crashed e w'.
Proof. eexists _, _. reflexivity. Qed.

End Runs.

Section Witnesses.

Import Sample.

Lemma handleSend_appends_user_message_witness :
  exists k w' um,
    dispatch clock (handleSend None) typing =
      Suspended (sendRequest None (Str.trim (input (st typing)))) k w' /\
    messages (st w') = (messages (st typing) ++ [um])%list /\
    role um = JStr "user" /\
    content um = JStr (Str.trim (input (st typing))) /\
    input (st w') = EmptyString /\
    isSending (st w') = true.
Proof.
  apply (handleSend_appends_user_message None clock typing);
    [vm_compute; discriminate | reflexivity].
Defined.

Lemma handleSend_ignored_while_sending_witness :
  handleSend None (st awaiting) = Ret tt /\
  dispatch clock (handleSend None) awaiting = Finished tt awaiting.
Proof.
  apply (handleSend_ignored_while_sending None clock awaiting); reflexivity.
Defined.

Lemma handleSend_failure_reports_error_witness :
  exists w' em,
    resume clock (dispatch clock (handleSend None) typing) offline awaiting = Finished tt w' /\
    messages (st w') = (messages (st awaiting) ++ [em])%list /\
    role em = JStr "system" /\
    error em = JBool true /\
    content em = JStr errorText /\
    agentStatus (st w') !! agent_rag = Some (JStr "error") /\
    agentStatus (st w') !! agent_planner = Some (JStr "idle") /\
    (forall k v, agentStatus (st w') !! k = Some v ->
                 v <> JStr "thinking" /\ v <> JStr "responding") /\
    isSending (st w') = false.
Proof.
  eapply (handleSend_failure_reports_error None clock typing offline awaiting);
    [vm_compute; discriminate | reflexivity | reflexivity].
Defined.

Lemma handleSend_merges_agentStatus_witness :
  exists w',
    resume clock (dispatch clock (handleSend None) typing) (Resolved reply) awaiting
      = Finished tt w' /\
    agentStatus (st w') = reply_status_map ∪ agentStatus (st awaiting) /\
    (forall k v, reply_status_map !! k = Some v -> agentStatus (st w') !! k = Some v) /\
    (forall k, reply_status_map !! k = None ->
               agentStatus (st w') !! k = agentStatus (st awaiting) !! k).
Proof.
  apply (handleSend_merges_agentStatus None clock typing reply reply_payload
           reply_status_map awaiting);
    [vm_compute; discriminate | reflexivity | reflexivity | reflexivity | reflexivity
    | repeat constructor].
Defined.

Lemma send_success_payload_or_simulated_witness :
  exists data,
    run clock (settle (sendMessageToBackend None "hello") (Resolved reply)) awaiting
      = Finished data awaiting /\
    (truthy (parsed reply) = true -> data = parsed reply) /\
    (truthy (parsed reply) = false -> data = simulateAgentResponse "hello") /\
    (truthy (parsed reply) = false <->
       res_json reply = None \/
       exists v, res_json reply = Some v /\
         (v = JNull \/ v = JUndefined \/ v = JBool false \/ v = JNum 0 \/ v = JStr EmptyString)).
Proof.
  apply (send_success_payload_or_simulated None clock "hello" reply awaiting); reflexivity.
Defined.

Lemma handleSend_appends_reply_entries_witness :
  exists w' fresh,
    resume clock (dispatch clock (handleSend None) typing) (Resolved More.batch_reply) awaiting
      = Finished tt w' /\
    messages (st w') = (messages (st awaiting) ++ fresh)%list /\
    length fresh = length More.batch /\
    NoDup (id <$> fresh) /\
    forall i m,
      More.batch !! i = Some m ->
      exists cm t,
        fresh !! i = Some cm /\
        (ticks awaiting <= t)%nat /\
        id cm = "a_" ++ num_to_string (clock t) ++ "_" ++ num_to_string (Z.of_nat i) /\
        (forall z j,
            id cm = "a_" ++ num_to_string z ++ "_" ++ num_to_string (Z.of_nat j) ->
            z = clock t /\ j = i) /\
        (forall old,
            old ∈ messages (st awaiting) ->
            id old = "m1" \/ id old = "m2" \/
            (exists x, id old = "u_" ++ x) \/ (exists x, id old = "err_" ++ x) \/
            (exists z j,
                id old = "a_" ++ num_to_string z ++ "_" ++ num_to_string (Z.of_nat j) /\
                z <> clock t) ->
            id old <> id cm) /\
        role cm = prop m "role" /\
        agentId cm = prop m "agentId" /\
        content cm = prop m "content" /\
        (truthy (prop m "timestamp") = true -> timestamp cm = prop m "timestamp") /\
        (truthy (prop m "timestamp") = false -> timestamp cm = JNum (clock (S t))).
Proof.
  apply (handleSend_appends_reply_entries None clock typing More.batch_reply
           More.batch_payload More.batch awaiting);
    [vm_compute; discriminate | reflexivity | reflexivity | reflexivity | reflexivity
    | repeat constructor].
Defined.

Lemma handleSend_failure_replaces_status_witness :
  (forall o w e w1,
      run clock (settle (sendMessageToBackend None (Str.trim (input (st typing)))) o) w
        = Failed e w1 ->
      exists w',
        resume clock (dispatch clock (handleSend None) typing) o w = Finished tt w' /\
        agentStatus (st w') =
          {[ agent_rag := JStr "error"; agent_planner := JStr "idle" ]} /\
        forall k, k <> agent_rag -> k <> agent_planner ->
                  agentStatus (st w') !! k = None) /\
  (forall res payload pm w,
      res_ok res = true ->
      res_json res = Some (JObj payload) ->
      payload !! "agentStatus" = Some (JObj pm) ->
      Forall readable (reply_entries (JObj payload)) ->
      exists w',
        resume clock (dispatch clock (handleSend None) typing) (Resolved res) w
          = Finished tt w' /\
        forall k, pm !! k = None ->
                  agentStatus (st w') !! k = agentStatus (st w) !! k).
Proof.
  apply (handleSend_failure_replaces_status None clock typing);
    [vm_compute; discriminate | reflexivity].
Defined.

End Witnesses.

(** * Where the code departs from the wording *)

Section Counterexamples.

Import Sample.

(** C8 as worded fails on a 200 response whose body is the JSON text
    [false]: parsing yields the value [false], and the simulator's
    output is returned in its place. *)
Lemma send_false_body_is_simulated :
  res_ok false_body = true /\
  res_json false_body = Some (JBool false) /\
  run clock (settle (sendMessageToBackend None "hello") (Resolved false_body)) awaiting
    = Finished (simulateAgentResponse "hello") awaiting /\
  simulateAgentResponse "hello" <> JBool false.
Proof.
  split; [reflexivity|]. split; [reflexivity|]. split; [reflexivity | discriminate].
Qed.

(** C9 as worded fails on an entry that carries the timestamp [0]:
    the appended message is stamped with the clock, not with [0]. *)
Lemma zero_timestamp_is_defaulted :
  exists w' cm,
    resume clock (dispatch clock (handleSend None) typing) (Resolved epoch_reply) awaiting
      = Finished tt w' /\
    last (messages (st w')) = Some cm /\
    prop epoch_entry "timestamp" = JNum 0 /\
    timestamp cm = JNum (clock 3) /\
    timestamp cm <> prop epoch_entry "timestamp".
Proof.
  eexists _, _. split; [reflexivity|]. split; [reflexivity|].
  split; [reflexivity|]. split; [reflexivity|]. vm_compute. discriminate.
Qed.

End Counterexamples.

(** * Further properties of the code *)

(** ** Trimming *)

Section TrimFacts.

Lemma trimStart_split (s : string) :
  exists pre, s = pre ++ Str.trimStart s /\ all_white pre = true /\
              head_white (Str.trimStart s) = false.
Proof.
  induction s as [|c s IH].
  - exists EmptyString. repeat split.
  - cbn [Str.trimStart]. destruct (Str.isWhite c) eqn:Ec.
    + destruct IH as [pre [H1 [H2 H3]]]. exists (String c pre).
      rewrite append_cons, <- H1. cbn [all_white]. rewrite Ec, H2. repeat split; auto.
    + exists EmptyString. repeat split; auto.
Qed.

Lemma trimEnd_split (s : string) :
  exists post, s = Str.trimEnd s ++ post /\ all_white post = true /\
               last_white (Str.trimEnd s) = false /\
               (head_white s = false -> head_white (Str.trimEnd s) = false).
Proof.
  induction s as [|c s IH].
  - exists EmptyString. repeat split.
  - destruct IH as [post [H1 [H2 [H3 H4]]]]. cbn [Str.trimEnd].
    destruct (Str.trimEnd s) as [|d r] eqn:Et.
    + rewrite append_nil in H1. subst post.
      destruct (Str.isWhite c) eqn:Ec.
      * exists (String c s). rewrite append_nil. cbn [all_white head_white].
        rewrite Ec, H2. repeat split; intros; discriminate.
      * exists s. rewrite append_cons, append_nil. cbn [last_white head_white].
        rewrite Ec. repeat split; auto.
    + exists post. rewrite append_cons, <- H1. repeat split; auto.
Qed.

(** [trim] removes white space at both ends and nothing else. *)
Lemma trim_split (s : string) :
  exists pre post,
    s = pre ++ Str.trim s ++ post /\
    all_white pre = true /\ all_white post = true /\
    head_white (Str.trim s) = false /\ last_white (Str.trim s) = false.
Proof.
  unfold Str.trim.
  destruct (trimStart_split s) as [pre [H1 [H2 H3]]].
  destruct (trimEnd_split (Str.trimStart s)) as [post [H4 [H5 [H6 H7]]]].
  exists pre, post. rewrite <- H4, <- H1. repeat split; auto.
Qed.

Lemma all_white_app (a b : string) :
  all_white (a ++ b) = all_white a && all_white b.
Proof.
  induction a as [|c a IH]; [reflexivity|].
  rewrite append_cons. cbn [all_white]. rewrite IH. apply andb_assoc.
Qed.

Lemma all_white_trimStart (s : string) :
  all_white s = true -> Str.trimStart s = EmptyString.
Proof.
  induction s as [|c s IH]; [reflexivity|]. cbn [all_white Str.trimStart].
  intros H. apply andb_true_iff in H. destruct H as [Hc Hs]. rewrite Hc. auto.
Qed.

(** The trimmed text is empty exactly when the text is white space. *)
Lemma trim_empty_iff (s : string) :
  Str.trim s = EmptyString <-> all_white s = true.
Proof.
  split.
  - intros H. destruct (trim_split s) as [pre [post [H1 [H2 [H3 _]]]]].
    rewrite H, append_nil in H1. rewrite H1, all_white_app, H2, H3. reflexivity.
  - intros H. unfold Str.trim. now rewrite (all_white_trimStart s H).
Qed.

End TrimFacts.

(** ** More on the send controller *)

Section SendFacts.

Variable backend : option string.
Variable clock : nat -> Z.

(** X1. [handleSend] does nothing at all exactly when the input is made
    of white space only (or is empty), or a send is in flight. *)
Theorem handleSend_ignores_exactly (view : AppState) :
  handleSend backend view = Ret tt <->
  all_white (input view) = true \/ isSending view = true.
Proof.
  split.
  - intros Hret.
    destruct (isSending view) eqn:Hs; [now right|]. left.
    apply trim_empty_iff.
    destruct (string_dec (Str.trim (input view)) EmptyString) as [He|Hne]; [exact He|].
    exfalso.
    pose proof (handleSend_suspends backend (fun _ => 0) view (mkWorld view 0 [] [])
                  (conj Hne Hs)) as Hrun.
    rewrite Hret in Hrun. discriminate Hrun.
  - intros [Hw | Hs].
    + apply handleSend_blank. now apply trim_empty_iff.
    + now apply handleSend_closed.
Qed.

(** X2. The text that a send appends and posts is the input without the
    white space at its two ends: it is not empty, it neither starts nor
    ends with white space, and the input is that text between two runs of
    white space. *)
Theorem user_message_is_trimmed (w : World) :
  Str.trim (input (st w)) <> EmptyString ->
  isSending (st w) = false ->
  exists req k w' um c pre post,
    dispatch clock (handleSend backend) w = Suspended req k w' /\
    last (messages (st w')) = Some um /\
    content um = JStr c /\
    req_body req = Some (JObj {[ "message" := JStr c ]}) /\
    input (st w) = pre ++ c ++ post /\
    all_white pre = true /\ all_white post = true /\
    head_white c = false /\ last_white c = false /\
    c <> EmptyString.
Proof.
  intros Htxt Hidle. unfold dispatch.
  rewrite handleSend_suspends by (split; assumption).
  destruct (trim_split (input (st w))) as [pre [post [H1 [H2 [H3 [H4 H5]]]]]].
  eexists _, _, _, _, (Str.trim (input (st w))), pre, post.
  split; [reflexivity|]. split; [cbn; apply last_snoc|].
  split; [reflexivity|]. split; [reflexivity|]. auto 10.
Qed.

(** X3. At its request, [handleSend] has set [agent_rag] to [thinking]
    and [agent_planner] to [idle] and left every other status entry, the
    theme, the timers and the console alone; the user message has the id
    [u_<now>] and is stamped with the next reading of the clock. *)
Theorem handleSend_optimistic_status (w : World) :
  Str.trim (input (st w)) <> EmptyString ->
  isSending (st w) = false ->
  exists req k w' um,
    dispatch clock (handleSend backend) w = Suspended req k w' /\
    agentStatus (st w') !! agent_rag = Some (JStr "thinking") /\
    agentStatus (st w') !! agent_planner = Some (JStr "idle") /\
    (forall a, a <> agent_rag -> a <> agent_planner ->
               agentStatus (st w') !! a = agentStatus (st w) !! a) /\
    theme (st w') = theme (st w) /\
    timers w' = timers w /\
    console_log w' = console_log w /\
    last (messages (st w')) = Some um /\
    id um = "u_" ++ num_to_string (clock (ticks w)) /\
    timestamp um = JNum (clock (S (ticks w))) /\
    ticks w' = S (S (ticks w)).
Proof.
  intros Htxt Hidle. unfold dispatch.
  rewrite handleSend_suspends by (split; assumption).
  eexists _, _, _, _. split; [reflexivity|].
  cbn -[agent_rag agent_planner]. unfold optimistic.
  split; [rewrite lookup_insert_ne by discriminate; apply lookup_insert_eq|].
  split; [apply lookup_insert_eq|].
  split; [intros a H1 H2; now rewrite !lookup_insert_ne by congruence|].
  do 3 (split; [reflexivity|]). split; [apply last_snoc|].
  repeat split.
Qed.

End SendFacts.

(** ** How a send settles *)

Section Settling.

Variable backend : option string.
Variable clock : nat -> Z.

Lemma readable_or_null (l : list jsval) :
  Forall readable l \/ Exists (fun m => nullish m = true) l.
Proof.
  induction l as [|m l IH]; [left; constructor|].
  destruct (nullish m) eqn:Em; [right; now constructor|].
  destruct IH as [IH|IH]; [left; now constructor | right; now constructor].
Qed.

(** Building the batch reads the clock and nothing else, also when it
    stops at a [null] entry. *)
Lemma run_map_entries_frame (l : list jsval) (idx : nat) (w : World) :
  match run clock (map_entries idx l) w with
  | Finished _ w' | Crashed _ w' =>
      st w' = st w /\ timers w' = timers w /\ console_log w' = console_log w
  | _ => False
  end.
Proof.
  revert idx w. induction l as [|m rest IH]; intros idx w; [cbn; auto|].
  cbn [map_entries]. rewrite run_now.
  destruct (nullish m) eqn:Em.
  - unfold read. rewrite Em. cbn. auto.
  - rewrite !run_read by exact Em.
    destruct (truthy (prop m "timestamp")).
    + rewrite run_ret, run_bind. specialize (IH (S idx) (tick w)).
      destruct (run clock (map_entries (S idx) rest) (tick w)); cbn in *; auto.
    + rewrite run_bind, run_now. cbn [run]. rewrite run_bind.
      specialize (IH (S idx) (tick (tick w))).
      destruct (run clock (map_entries (S idx) rest) (tick (tick w))); cbn in *; auto.
Qed.

Lemma after_await_crash_frame (text : string) (res : Response) (w : World) :
  res_ok res = true ->
  Exists (fun m => nullish m = true)
    (reply_entries (js_or (parsed res) (simulateAgentResponse text))) ->
  exists e w', run clock (after_await backend text (Resolved res)) w = Crashed e w' /\
               st w' = st w /\ timers w' = timers w.
Proof.
  intros Hok Hex. unfold after_await.
  rewrite run_try_finally, run_try_catch, run_bind, (send_settled_ok _ _ _ _ _ Hok).
  unfold apply_reply. rewrite run_bind. unfold reply_entries in Hex.
  destruct (if nullish _ then JUndefined else prop _ "messages")
    as [| |b|n|s|l|o]; try (inversion Hex; fail).
  rewrite run_bind.
  pose proof (run_map_entries_frame l 0 w) as Hframe.
  destruct (run_map_entries_crash clock l Hex 0%nat w) as [e [w' Hrun]].
  rewrite Hrun in *. exists e, w'. cbn. tauto.
Qed.

(** The three ways in which the rest of [handleSend] ends. *)
Lemma after_await_outcome (text : string) (o : FetchOutcome) (w : World) :
  (request_fails o = true /\
   run clock (after_await backend text o) w
     = Finished tt (failed_world clock (send_error o) w)) \/
  (exists res w1,
      o = Resolved res /\ res_ok res = true /\
      Forall readable (reply_entries (js_or (parsed res) (simulateAgentResponse text))) /\
      run clock (after_await backend text o) w
        = Finished tt (upd (with_isSending false) w1) /\
      merged clock (js_or (parsed res) (simulateAgentResponse text)) w w1) \/
  (exists res e w',
      o = Resolved res /\ res_ok res = true /\
      Exists (fun m => nullish m = true)
        (reply_entries (js_or (parsed res) (simulateAgentResponse text))) /\
      run clock (after_await backend text o) w = Crashed e w' /\
      st w' = st w /\ timers w' = timers w).
Proof.
  destruct (request_fails o) eqn:Hreq.
  - left. split; [reflexivity|]. now apply after_await_failure.
  - right. destruct o as [e|res]; [discriminate|].
    simpl in Hreq. apply negb_false_iff in Hreq.
    destruct (readable_or_null
                (reply_entries (js_or (parsed res) (simulateAgentResponse text))))
      as [Hread|Hnull].
    + left. destruct (after_await_success backend clock text res w Hreq Hread)
        as [w1 [Hrun Hm]]. eauto 10.
    + right. destruct (after_await_crash_frame text res w Hreq Hnull)
        as [e [w' [Hrun [H1 H2]]]]. eauto 10.
Qed.

(** X4. However the request is settled and whatever the world has become,
    the suspended [handleSend] ends without a second request and without
    an error of its own: it finishes with the in-flight flag cleared, or,
    exactly when a successful reply holds a [null] entry, the update of
    the store tears the component down with the state untouched. *)
Theorem handleSend_settles_once (w0 : World) (o : FetchOutcome) (w : World) :
  Str.trim (input (st w0)) <> EmptyString ->
  isSending (st w0) = false ->
  match resume clock (dispatch clock (handleSend backend) w0) o w with
  | Finished _ w' =>
      isSending (st w') = false /\
      (request_fails o = true \/
       exists res, o = Resolved res /\
         Forall readable
           (reply_entries (js_or (parsed res)
                             (simulateAgentResponse (Str.trim (input (st w0)))))))
  | Crashed _ w' =>
      st w' = st w /\
      exists res, o = Resolved res /\ res_ok res = true /\
        Exists (fun m => nullish m = true)
          (reply_entries (js_or (parsed res)
                            (simulateAgentResponse (Str.trim (input (st w0))))))
  | Failed _ _ => False
  | Suspended _ _ _ => False
  end.
Proof.
  intros Htxt Hidle. unfold dispatch.
  rewrite handleSend_suspends by (split; assumption). cbn [resume].
  destruct (after_await_outcome (Str.trim (input (st w0))) o w)
    as [[Hreq ->]
       | [(res & w1 & -> & Hok & Hread & -> & Hm)
         | (res & e & w' & -> & Hok & Hex & -> & Hst & _)]].
  - split; [reflexivity | now left].
  - split; [reflexivity|]. right. eauto.
  - split; [exact Hst|]. eauto.
Qed.

End Settling.

Section SettledState.

Variable backend : option string.
Variable clock : nat -> Z.

(** X5. When the suspended [handleSend] finishes, the store is the store
    of that moment with new messages after it: one for a failure, one
    per entry of the reply's array for a success, none when [messages] is
    not an array.  The input buffer and the theme are as they were at
    that moment, and no pending timer has been removed. *)
Theorem handleSend_completion_frame
    (w0 : World) (o : FetchOutcome) (w w' : World) :
  Str.trim (input (st w0)) <> EmptyString ->
  isSending (st w0) = false ->
  resume clock (dispatch clock (handleSend backend) w0) o w = Finished tt w' ->
  (exists fresh,
      messages (st w') = (messages (st w) ++ fresh)%list /\
      length fresh = appended (Str.trim (input (st w0))) o) /\
  input (st w') = input (st w) /\
  theme (st w') = theme (st w) /\
  timers w `prefix_of` timers w'.
Proof.
  intros Htxt Hidle. unfold dispatch.
  rewrite handleSend_suspends by (split; assumption). cbn [resume].
  destruct (after_await_outcome backend clock (Str.trim (input (st w0))) o w)
    as [[Hreq ->]
       | [(res & w1 & -> & Hok & Hread & -> & Hm)
         | (res & e & w2 & -> & Hok & Hex & -> & _)]];
    intros Hfin; inversion Hfin; subst w'; clear Hfin.
  - split; [|cbn; repeat split; reflexivity].
    eexists. split; [reflexivity|].
    destruct o as [e|res]; [reflexivity|]. simpl in Hreq. cbn.
    apply negb_true_iff in Hreq. now rewrite Hreq.
  - destruct Hm as (Hmsg & _ & Htim & Hin & _ & Hth & _). cbn.
    split; [|split; [exact Hin|split; [exact Hth|]]].
    + eexists. split; [exact Hmsg|]. rewrite Hok. apply convert_entries_length.
    + rewrite Htim. destruct (truthy _); [reflexivity | now apply prefix_app_r].
Qed.

(** X6. A successful reply without a truthy [agentStatus] replaces the
    whole status map by [{agent_rag: 'responding', agent_planner:
    'thinking'}] and arms one timer of 1200 ms after the pending ones;
    what that timer does is to replace the map by [{agent_rag: 'idle',
    agent_planner: 'idle'}] and nothing else. *)
Theorem handleSend_transient_status
    (w0 : World) (res : Response) (w : World) :
  Str.trim (input (st w0)) <> EmptyString ->
  isSending (st w0) = false ->
  res_ok res = true ->
  truthy (parsed res) = true ->
  truthy (prop (parsed res) "agentStatus") = false ->
  Forall readable (reply_entries (parsed res)) ->
  exists w' cb,
    resume clock (dispatch clock (handleSend backend) w0) (Resolved res) w = Finished tt w' /\
    agentStatus (st w') =
      {[ agent_rag := JStr "responding"; agent_planner := JStr "thinking" ]} /\
    timers w' = (timers w ++ [(1200, cb)])%list /\
    forall s,
      agentStatus (cb s) = {[ agent_rag := JStr "idle"; agent_planner := JStr "idle" ]} /\
      messages (cb s) = messages s /\ input (cb s) = input s /\
      isSending (cb s) = isSending s /\ theme (cb s) = theme s.
Proof.
  intros Htxt Hidle Hok Hdata Hstatus Hread. unfold dispatch.
  rewrite handleSend_suspends by (split; assumption). cbn [resume].
  assert (js_or (parsed res) (simulateAgentResponse (Str.trim (input (st w0)))) = parsed res)
    as Hjs by (unfold js_or; now rewrite Hdata).
  destruct (after_await_success backend clock (Str.trim (input (st w0))) res w Hok)
    as [w1 [Hrun Hm]]; [now rewrite Hjs|].
  rewrite Hjs in Hm. destruct Hm as (_ & Hst & Htim & _).
  assert (reply_status (parsed res) = prop (parsed res) "agentStatus") as Hrs.
  { unfold reply_status. destruct (parsed res); try reflexivity; discriminate. }
  rewrite Hrs, Hstatus in Hst, Htim.
  exists (upd (with_isSending false) w1), (with_agentStatus (fun _ => idle_status)).
  split; [exact Hrun|]. split; [exact Hst|]. split; [exact Htim|].
  intros s. repeat split.
Qed.

(** X7. Sending does not cancel a pending reset: when a timer of an
    earlier send is still pending, it fires while the new send awaits the
    backend, and then [agent_rag] reads [idle], not the [thinking] that
    the send had set, although the send is still in flight. *)
Theorem stale_timer_overrides_sending_status
    (w : World) (rest : list (Z * (AppState -> AppState))) :
  Str.trim (input (st w)) <> EmptyString ->
  isSending (st w) = false ->
  timers w = reset_timer :: rest ->
  exists req k w' w'',
    dispatch clock (handleSend backend) w = Suspended req k w' /\
    agentStatus (st w') !! agent_rag = Some (JStr "thinking") /\
    fire w' = Some w'' /\
    agentStatus (st w'') !! agent_rag = Some (JStr "idle") /\
    isSending (st w'') = true /\
    timers w'' = rest.
Proof.
  intros Htxt Hidle Htim. unfold dispatch.
  rewrite handleSend_suspends by (split; assumption).
  eexists _, _, _, _. split; [reflexivity|].
  split; [cbn -[agent_rag agent_planner]; unfold optimistic;
          rewrite lookup_insert_ne by discriminate; apply lookup_insert_eq|].
  unfold fire. cbn [timers sending_world upd tick]. rewrite Htim. cbn [reset_timer].
  split; [reflexivity|]. repeat split.
Qed.

(** X8. When a successful response has no usable body (it does not
    parse, or parses to a falsy value), [handleSend] appends the two
    simulated messages for the text it sent, the research one then the
    planner one, sets the two agents to [responding] and [thinking],
    keeps every other status entry and arms no timer. *)
Theorem handleSend_simulated_fallback
    (w0 : World) (res : Response) (w : World) :
  Str.trim (input (st w0)) <> EmptyString ->
  isSending (st w0) = false ->
  res_ok res = true ->
  truthy (parsed res) = false ->
  exists w' m1 m2,
    resume clock (dispatch clock (handleSend backend) w0) (Resolved res) w = Finished tt w' /\
    messages (st w') = (messages (st w) ++ [m1; m2])%list /\
    role m1 = JStr "agent" /\ agentId m1 = JStr agent_rag /\
    content m1 = JStr (ragContent (Str.trim (input (st w0)))) /\
    role m2 = JStr "agent" /\ agentId m2 = JStr agent_planner /\
    content m2 = JStr (plannerReply (Str.trim (input (st w0)))) /\
    agentStatus (st w') !! agent_rag = Some (JStr "responding") /\
    agentStatus (st w') !! agent_planner = Some (JStr "thinking") /\
    (forall a, a <> agent_rag -> a <> agent_planner ->
               agentStatus (st w') !! a = agentStatus (st w) !! a) /\
    timers w' = timers w.
Proof.
  intros Htxt Hidle Hok Hdata. unfold dispatch.
  rewrite handleSend_suspends by (split; assumption). cbn [resume].
  set (text := Str.trim (input (st w0))).
  assert (js_or (parsed res) (simulateAgentResponse text) = simulateAgentResponse text)
    as Hjs by (unfold js_or; now rewrite Hdata).
  destruct (after_await_success backend clock text res w Hok)
    as [w1 [Hrun Hm]].
  { rewrite Hjs. repeat constructor. }
  rewrite Hjs in Hm. destruct Hm as (Hmsg & Hst & Htim & _).
  exists (upd (with_isSending false) w1).
  exists (convert_entry clock (ticks w) 0 (ragEntry text)).
  exists (convert_entry clock (2 + ticks w) 1 (plannerEntry text)).
  split; [exact Hrun|]. split; [exact Hmsg|].
  do 6 (split; [reflexivity|]).
  change (reply_status (simulateAgentResponse text))
    with (JObj {[ agent_rag := JStr "responding"; agent_planner := JStr "thinking" ]})
    in Hst, Htim.
  cbn [truthy spread] in Hst, Htim. cbn -[agent_rag agent_planner]. rewrite Hst.
  split; [apply lookup_union_Some_l, lookup_insert_eq|].
  split; [apply lookup_union_Some_l; rewrite lookup_insert_ne by discriminate;
          apply lookup_singleton_eq|].
  split; [|exact Htim].
  intros a H1 H2. apply lookup_union_r.
  rewrite lookup_insert_ne by congruence. apply lookup_singleton_ne. congruence.
Qed.

(** X9. What went wrong reaches the console and never the screen: every
    failed request is logged once with [console.error], carrying the
    error of [fetch] or the body or status of the response, and any two
    failures leave the same state behind. *)
Theorem handleSend_failure_detail_only_in_console
    (w0 : World) (o1 o2 : FetchOutcome) (w : World) :
  Str.trim (input (st w0)) <> EmptyString ->
  isSending (st w0) = false ->
  request_fails o1 = true ->
  request_fails o2 = true ->
  exists w1 w2,
    resume clock (dispatch clock (handleSend backend) w0) o1 w = Finished tt w1 /\
    resume clock (dispatch clock (handleSend backend) w0) o2 w = Finished tt w2 /\
    st w1 = st w2 /\
    console_log w1 = (console_log w ++ [("error", send_error o1)])%list /\
    console_log w2 = (console_log w ++ [("error", send_error o2)])%list /\
    (forall e, o1 = Rejected e -> send_error o1 = e) /\
    (forall r body, o1 = Resolved r -> res_text r = inr body ->
       err_message (send_error o1) =
       "Backend error: " ++
         (if String.eqb body EmptyString then num_to_string (res_status r) else body)).
Proof.
  intros Htxt Hidle H1 H2. unfold dispatch.
  rewrite handleSend_suspends by (split; assumption). cbn [resume].
  rewrite (after_await_failure backend clock _ o1 w H1),
          (after_await_failure backend clock _ o2 w H2).
  eexists _, _. do 5 (split; [reflexivity|]). split.
  - intros e ->. reflexivity.
  - intros r body -> Hbody. cbn. now rewrite Hbody.
Qed.

End SettledState.

(** ** The status poll *)

Section Poll.

Variable backend : option string.
Variable clock : nat -> Z.

(** X10. On a response with a status in 200-299, [fetchAgentStatus]
    returns the parsed body as it is whenever it is truthy, whether or
    not it holds an [agentStatus], and the local map when it is falsy,
    without a word on the console; a failed request is answered with the
    local map and one [console.warn]. *)
Theorem fetchAgentStatus_returns_payload
    (view : AppState) (o : FetchOutcome) (w : World) :
  exists v w',
    run clock (settle (fetchAgentStatus backend view) o) w = Finished v w' /\
    (forall res, o = Resolved res -> res_ok res = true ->
       w' = w /\
       (truthy (parsed res) = true -> v = parsed res) /\
       (truthy (parsed res) = false ->
        v = JObj {[ "agentStatus" := JObj (agentStatus view) ]})) /\
    (request_fails o = true ->
       v = JObj {[ "agentStatus" := JObj (agentStatus view) ]} /\
       exists e, console_log w' = (console_log w ++ [("warn", e)])%list /\
         (forall r, o = Rejected r -> e = r) /\
         (forall res, o = Resolved res ->
            err_message e =
            "Failed to fetch agent status: " ++ num_to_string (res_status res))).
Proof.
  rewrite status_settled. destruct o as [r|res].
  - eexists _, _. split; [reflexivity|]. split; [intros res H; discriminate H|].
    intros _. split; [reflexivity|]. eexists. split; [reflexivity|].
    split; [intros r' H; now inversion H | intros res H; discriminate H].
  - destruct (res_ok res) eqn:Hok.
    + eexists _, _. split; [reflexivity|]. split.
      * intros res' H _. inversion H; subst res'. split; [reflexivity|].
        unfold js_or. split; intros Ht; now rewrite Ht.
      * simpl. rewrite Hok. discriminate.
    + eexists _, _. split; [reflexivity|]. split.
      * intros res' H Hok'. inversion H; subst res'. congruence.
      * intros _. split; [reflexivity|]. eexists. split; [reflexivity|].
        split; [intros r H; discriminate H | intros res' H; now inversion H].
Qed.

End Poll.

(** ** What is drawn *)

Section Drawing.

(** X11. Toggling the theme changes nothing but the theme, always lands
    on [light] or [dark], and toggling twice from one of these two gives
    the state back. *)
Theorem toggleTheme_alternates (clock : nat -> Z) (w : World) :
  exists w1 w2,
    run clock toggleTheme w = Finished tt w1 /\
    run clock toggleTheme w1 = Finished tt w2 /\
    (theme (st w1) = "light" \/ theme (st w1) = "dark") /\
    theme (st w1) <> theme (st w) /\
    messages (st w1) = messages (st w) /\ input (st w1) = input (st w) /\
    agentStatus (st w1) = agentStatus (st w) /\ isSending (st w1) = isSending (st w) /\
    (theme (st w) = "light" \/ theme (st w) = "dark" -> theme (st w2) = theme (st w)).
Proof.
  eexists _, _. split; [reflexivity|]. split; [reflexivity|]. cbn.
  destruct (String.eqb_spec (theme (st w)) "light") as [E|E].
  - rewrite E. cbn. split; [now right|]. split; [discriminate|]. repeat split; auto.
  - cbn. split; [now left|]. split; [congruence|]. do 4 (split; [reflexivity|]).
    intros [H|H]; [contradiction | now rewrite H].
Qed.

Lemma pill_status_of (status : gmap string jsval) (a : AgentDescriptor) :
  let v := js_or (default JUndefined (status !! agent_id a)) (JStr "idle") in
  truthy v = true /\
  (truthy (default JUndefined (status !! agent_id a)) = false -> v = JStr "idle").
Proof.
  unfold js_or. destruct (truthy (default JUndefined (status !! agent_id a))) eqn:E.
  - now rewrite E.
  - split; [reflexivity | reflexivity].
Qed.

(** X12. The agent bar always shows the two known agents, the researcher
    then the planner, whatever the status map holds: an entry of another
    agent is ignored, the status of a pill is never falsy, and an agent
    whose entry is missing or falsy is drawn exactly as an idle one. *)
Theorem statusData_shows_known_agents (status : gmap string jsval) :
  (agent_id ∘ pill_agent) <$> statusData status = [agent_rag; agent_planner] /\
  Forall (fun p => truthy (pill_status p) = true) (statusData status) /\
  (forall other : gmap string jsval,
      other !! agent_rag = status !! agent_rag ->
      other !! agent_planner = status !! agent_planner ->
      statusData other = statusData status) /\
  (forall p, p ∈ statusData status ->
      truthy (default JUndefined (status !! agent_id (pill_agent p))) = false ->
      AgentStatus (pill_status p) (agent_color (pill_agent p))
      = AgentStatus (JStr "idle") (agent_color (pill_agent p))).
Proof.
  split; [reflexivity|]. split; [|split].
  - unfold statusData, EXAMPLE_AGENTS. cbn [fmap list_fmap].
    repeat constructor; apply pill_status_of.
  - intros other H1 H2. unfold statusData, EXAMPLE_AGENTS. cbn [fmap list_fmap agent_id].
    now rewrite H1, H2.
  - intros p Hp Hfalsy. unfold statusData in Hp.
    apply list_elem_of_fmap in Hp. destruct Hp as [a [-> _]].
    cbn [pill_agent pill_status] in *.
    now rewrite (proj2 (pill_status_of status a) Hfalsy).
Qed.

(** The four values of the status enumeration. *)
Lemma statusLabel_cases (v : jsval) :
  (v = JStr "idle" /\ AgentStatus v = fun c => mkStatusView c "0.35" "Idle") \/
  (v = JStr "thinking" /\ AgentStatus v = fun c => mkStatusView c "1" "Thinking") \/
  (v = JStr "responding" /\ AgentStatus v = fun c => mkStatusView c "1" "Responding") \/
  (v = JStr "error" /\ AgentStatus v = fun c => mkStatusView c "1" "Error") \/
  (v <> JStr "idle" /\ v <> JStr "thinking" /\ v <> JStr "responding" /\
   v <> JStr "error" /\ AgentStatus v = fun c => mkStatusView c "1" "Idle").
Proof.
  unfold AgentStatus, statusLabel.
  destruct v as [| |b|n|s|l|o];
    try (do 4 right; repeat split; try discriminate; reflexivity).
  cbn [is_string].
  destruct (String.eqb_spec s "idle") as [->|H1]; [left; split; reflexivity|].
  destruct (String.eqb_spec s "thinking") as [->|H2]; [right; left; split; reflexivity|].
  destruct (String.eqb_spec s "responding") as [->|H3];
    [right; right; left; split; reflexivity|].
  destruct (String.eqb_spec s "error") as [->|H4];
    [right; right; right; left; split; reflexivity|].
  do 4 right. repeat split; congruence.
Qed.

(** X13. The label of a status tells the four values of the enumeration
    apart, so the status can be read back from the pill; the dot is
    dimmed for [idle] only.  Any other value, a string outside the
    enumeration or not a string, is labelled [Idle] like an idle agent but
    drawn with a full dot. *)
Theorem statusLabel_reads_back (v v' : jsval) (color : string) :
  let enum := [JStr "idle"; JStr "thinking"; JStr "responding"; JStr "error"] in
  (v ∈ enum -> v' ∈ enum -> statusLabel v = statusLabel v' -> v = v') /\
  (dot_opacity (AgentStatus v color) = "0.35" <-> v = JStr "idle") /\
  (v ∉ enum ->
   status_text (AgentStatus v color) = "Idle" /\ dot_opacity (AgentStatus v color) = "1").
Proof.
  intros enum. split; [|split].
  - intros Hv Hv' Hl. unfold enum in *.
    repeat (apply elem_of_cons in Hv; destruct Hv as [->|Hv]);
      try (now apply elem_of_nil in Hv);
      repeat (apply elem_of_cons in Hv'; destruct Hv' as [->|Hv']);
      try (now apply elem_of_nil in Hv');
      try reflexivity; discriminate Hl.
  - destruct (statusLabel_cases v) as [[-> H]|[[-> H]|[[-> H]|[[-> H]|(H1 & _ & _ & _ & H)]]]];
      rewrite H; cbn; split; try reflexivity; try discriminate; try congruence.
  - intros Hv.
    destruct (statusLabel_cases v) as [[-> H]|[[-> H]|[[-> H]|[[-> H]|(_ & _ & _ & _ & H)]]]];
      try (exfalso; apply Hv; unfold enum; set_solver).
    rewrite H. split; reflexivity.
Qed.

End Drawing.

Section Bubbles.

Variable clock : nat -> Z.

(** X14. A bubble is drawn by the role of its message: a [user] message
    on the right in the user colour, without avatar or header; an [agent]
    message on the left in the agent colour with both; a [system] message
    on the left in red with neither; a message of any other role on the
    left in red, with the robot avatar and no header.  So the message that
    [handleSend] appends for the user is on the right and its error
    message is a red one without avatar.  The time shown is the
    timestamp of the message unless that is falsy. *)
Theorem ChatBubble_by_role (now : Z) (m : ChatMessage) :
  (role m = JStr "user" ->
   row_justify (ChatBubble now m) = "flex-end" /\
   align_self (ChatBubble now m) = "flex-end" /\
   background (ChatBubble now m) = themeTokens.bubbleUser /\
   avatar (ChatBubble now m) = None /\ header (ChatBubble now m) = None) /\
  (role m = JStr "agent" ->
   row_justify (ChatBubble now m) = "flex-start" /\
   background (ChatBubble now m) = themeTokens.bubbleAgent /\
   is_Some (avatar (ChatBubble now m)) /\ is_Some (header (ChatBubble now m))) /\
  (role m = JStr "system" ->
   row_justify (ChatBubble now m) = "flex-start" /\
   background (ChatBubble now m) = "#ef4444" /\
   avatar (ChatBubble now m) = None /\ header (ChatBubble now m) = None) /\
  (role m <> JStr "user" -> role m <> JStr "agent" -> role m <> JStr "system" ->
   row_justify (ChatBubble now m) = "flex-start" /\
   background (ChatBubble now m) = "#ef4444" /\
   avatar (ChatBubble now m) = Some (themeTokens.secondary, robot) /\
   header (ChatBubble now m) = None) /\
  (forall text t1 t2,
      row_justify (ChatBubble now (userMessage text t1 t2)) = "flex-end" /\
      avatar (ChatBubble now (userMessage text t1 t2)) = None /\
      background (ChatBubble now (errorMessage t1 t2)) = "#ef4444" /\
      avatar (ChatBubble now (errorMessage t1 t2)) = None) /\
  bubble_text (ChatBubble now m) = content m /\
  (truthy (timestamp m) = true -> bubble_time (ChatBubble now m) = timestamp m) /\
  (truthy (timestamp m) = false -> bubble_time (ChatBubble now m) = JNum now).
Proof.
  assert (forall v s, is_string v s = true <-> v = JStr s) as Hstr.
  { intros [| |b|n|t|l|o] s; cbn; split; try discriminate.
    - intros H. apply String.eqb_eq in H. now subst.
    - intros H. inversion H. apply String.eqb_refl. }
  assert (forall v s, v <> JStr s -> is_string v s = false) as Hne.
  { intros v s H. destruct (is_string v s) eqn:E; [|reflexivity].
    apply Hstr in E. contradiction. }
  unfold ChatBubble. cbn [row_justify align_self background avatar header bubble_text bubble_time].
  split; [intros ->; cbn; repeat split|].
  split; [intros ->; cbn; repeat split; eauto|].
  split; [intros ->; cbn; repeat split|].
  split.
  { intros H1 H2 H3. rewrite (Hne _ _ H1), (Hne _ _ H2), (Hne _ _ H3). repeat split. }
  split; [intros; repeat split|].
  split; [reflexivity|].
  unfold js_or. split; intros Ht; now rewrite Ht.
Qed.

Lemma find_agent_known (d : AgentDescriptor) :
  d ∈ EXAMPLE_AGENTS -> find_agent (JStr (agent_id d)) = Some d.
Proof.
  unfold EXAMPLE_AGENTS. intros H.
  repeat (apply elem_of_cons in H; destruct H as [->|H]); [reflexivity..|].
  now apply elem_of_nil in H.
Qed.

Lemma find_agent_unknown (v : jsval) :
  (forall d, d ∈ EXAMPLE_AGENTS -> v <> JStr (agent_id d)) -> find_agent v = None.
Proof.
  intros H. unfold find_agent.
  destruct (List.find _ EXAMPLE_AGENTS) as [d|] eqn:E; [|reflexivity].
  apply List.find_some in E. destruct E as [Hin Hd].
  exfalso. apply (H d); [now apply list_elem_of_In|].
  destruct v as [| |b|n|t|l|o]; try discriminate Hd.
  cbn in Hd. apply String.eqb_eq in Hd. now subst.
Qed.

(** X15. An agent message whose [agentId] is the id of a known agent is
    drawn with that agent's colour, glyph and name; with any other
    [agentId], or none, it is drawn with the fallback colour, the robot
    glyph and the name [Agent].  The messages that the application makes
    itself, the two greetings and the simulated replies, are always of
    the first kind. *)
Theorem ChatBubble_agent_identity (now : Z) (m : ChatMessage) :
  role m = JStr "agent" ->
  (forall d, d ∈ EXAMPLE_AGENTS -> agentId m = JStr (agent_id d) ->
     avatar (ChatBubble now m) = Some (agent_color d, agent_emoji d) /\
     header (ChatBubble now m) = Some (Some (agent_emoji d), agent_name d)) /\
  ((forall d, d ∈ EXAMPLE_AGENTS -> agentId m <> JStr (agent_id d)) ->
     avatar (ChatBubble now m) = Some (themeTokens.secondary, robot) /\
     header (ChatBubble now m) = Some (None, "Agent")) /\
  (forall text t idx e,
      e ∈ [ragEntry text; plannerEntry text] ->
      role (convert_entry clock t idx e) = JStr "agent" /\
      exists d, d ∈ EXAMPLE_AGENTS /\
                agentId (convert_entry clock t idx e) = JStr (agent_id d)) /\
  (forall t0 t1 g,
      g ∈ messages (initial_state t0 t1) ->
      role g = JStr "agent" /\
      exists d, d ∈ EXAMPLE_AGENTS /\ agentId g = JStr (agent_id d)).
Proof.
  intros Hrole. unfold ChatBubble. rewrite Hrole.
  cbn [is_string String.eqb avatar header negb andb].
  change (String.eqb "agent" "user") with false.
  change (String.eqb "agent" "agent") with true.
  change (String.eqb "agent" "system") with false.
  cbn [negb andb avatar header]. split; [|split; [|split]].
  - intros d Hd Hid. rewrite Hid, (find_agent_known d Hd). split; reflexivity.
  - intros Hunk. rewrite (find_agent_unknown _ Hunk). split; reflexivity.
  - intros text t idx e He.
    repeat (apply elem_of_cons in He; destruct He as [->|He]);
      [| |now apply elem_of_nil in He]; (split; [reflexivity|]).
    + eexists. split; [apply list_elem_of_here | reflexivity].
    + eexists. split; [apply list_elem_of_further, list_elem_of_here | reflexivity].
  - intros t0 t1 g Hg. cbn in Hg.
    repeat (apply elem_of_cons in Hg; destruct Hg as [->|Hg]);
      [| |now apply elem_of_nil in Hg]; (split; [reflexivity|]).
    + eexists. split; [apply list_elem_of_here | reflexivity].
    + eexists. split; [apply list_elem_of_further, list_elem_of_here | reflexivity].
Qed.

End Bubbles.

(** ** The keyboard *)

Section Keyboard.

Variable backend : option string.
Variable clock : nat -> Z.

(** X16. Only Enter without Shift is handled: then the default action
    of the key is prevented and [handleSend] runs, so that on blank input
    or while a send is in flight the key is swallowed and nothing else
    happens.  Shift+Enter and every other key are left to the text area
    and change nothing. *)
Theorem onKeyDown_enter_only (w : World) (e : KeyEvent) :
  let prevented := fst (onKeyDown backend (st w) e) in
  let effects := snd (onKeyDown backend (st w) e) in
  (prevented = true <-> ev_key e = "Enter" /\ ev_shiftKey e = false) /\
  (prevented = false -> effects = Ret tt /\ run clock effects w = Finished tt w) /\
  (prevented = true ->
   run clock effects w = dispatch clock (handleSend backend) w /\
   (all_white (input (st w)) = true \/ isSending (st w) = true ->
    run clock effects w = Finished tt w)).
Proof.
  unfold onKeyDown.
  destruct (String.eqb_spec (ev_key e) "Enter") as [Hk|Hk];
    destruct (ev_shiftKey e) eqn:Hs; cbn [andb negb fst snd].
  - split; [split; [discriminate | intros [_ H]; discriminate H]|].
    split; [intros _; split; reflexivity | discriminate].
  - split; [split; auto|]. split; [discriminate|]. intros _. split; [reflexivity|].
    intros [H|H].
    + apply trim_empty_iff in H. now rewrite (handleSend_blank backend _ H).
    + now rewrite (handleSend_closed backend _ H).
  - split; [split; [discriminate | intros [H _]; contradiction]|].
    split; [intros _; split; reflexivity | discriminate].
  - split; [split; [discriminate | intros [H _]; contradiction]|].
    split; [intros _; split; reflexivity | discriminate].
Qed.

End Keyboard.

(** ** More on the simulator *)

Section SimulatorFacts.

Lemma length_append (a b : string) :
  String.length (a ++ b) = (String.length a + String.length b)%nat.
Proof.
  induction a as [|c a IH]; [reflexivity|].
  rewrite append_cons. cbn [String.length]. now rewrite IH.
Qed.

(** X17. The research reply echoes no more than the first 60 code units
    of the text: two texts with the same first 60 code units get the same
    reply, and the content is 77 code units longer than the echo. *)
Theorem rag_reply_depends_on_prefix :
  (forall t1 t2 : string,
      String.substring 0 60 t1 = String.substring 0 60 t2 ->
      ragEntry t1 = ragEntry t2) /\
  (forall text : string,
      String.length (ragContent text) = (77 + Nat.min 60 (String.length text))%nat).
Proof.
  split.
  - intros t1 t2 H. unfold ragEntry, ragContent. now rewrite !slice_0_60, H.
  - intros text. unfold ragContent.
    rewrite !length_append, slice_0_60.
    destruct (substring_0_split 60 text) as [tail [_ ->]].
    cbn [String.length ragReply Str.dquote]. lia.
Qed.

Lemma toLowerCase_app (a b : string) :
  Str.toLowerCase (a ++ b) = Str.toLowerCase a ++ Str.toLowerCase b.
Proof.
  induction a as [|c a IH]; [reflexivity|].
  rewrite append_cons. cbn [Str.toLowerCase]. now rewrite append_cons, IH.
Qed.

Lemma toLowerCase_split (t a b : string) :
  Str.toLowerCase t = a ++ b ->
  exists t1 t2, t = t1 ++ t2 /\ Str.toLowerCase t1 = a /\ Str.toLowerCase t2 = b.
Proof.
  revert t. induction a as [|c a IH]; intros t H.
  - exists EmptyString, t. rewrite append_nil in H. repeat split. exact H.
  - destruct t as [|d t]; [discriminate H|].
    rewrite append_cons in H. cbn [Str.toLowerCase] in H. inversion H as [[Hc Ht]].
    destruct (IH t Ht) as [t1 [t2 [-> [H1 H2]]]].
    exists (String d t1), t2. rewrite append_cons. cbn [Str.toLowerCase].
    rewrite H1. repeat split. exact H2.
Qed.

(** X18. The step-by-step plan is chosen exactly when the text contains
    "plan" or "how" in some capitalisation, anywhere, also inside a
    longer word; every other text gets the generic reply. *)
Theorem plan_keyword_any_case (text : string) :
  plannerReply text = plannerPlan <->
  exists pre kw post,
    text = pre ++ kw ++ post /\
    (Str.toLowerCase kw = "plan" \/ Str.toLowerCase kw = "how").
Proof.
  unfold plannerReply. split.
  - destruct (helpful text) eqn:E; [intros _ | discriminate].
    apply helpful_spec in E.
    assert (forall w, Str.contains w (Str.toLowerCase text) ->
                      exists pre kw post, text = pre ++ kw ++ post /\ Str.toLowerCase kw = w)
      as Hback.
    { intros w [a [b Hab]].
      destruct (toLowerCase_split _ _ _ Hab) as [t1 [t2 [-> [H1 H2]]]].
      destruct (toLowerCase_split _ _ _ H2) as [t3 [t4 [-> [H3 H4]]]].
      eauto 6. }
    destruct E as [E|E]; destruct (Hback _ E) as (pre & kw & post & -> & Hkw);
      exists pre, kw, post; auto.
  - intros (pre & kw & post & -> & Hkw).
    assert (helpful (pre ++ kw ++ post) = true) as ->; [|reflexivity].
    apply helpful_spec. rewrite !toLowerCase_app.
    destruct Hkw as [-> | ->]; [left | right]; eexists _, _; reflexivity.
Qed.

End SimulatorFacts.

(** ** The event loop *)

Section LoopFacts.

Variable backend : option string.
Variable clock : nat -> Z.

Lemma idle_status_known :
  is_Some (idle_status !! agent_rag) /\ is_Some (idle_status !! agent_planner).
Proof. split; eexists; reflexivity. Qed.

Lemma Inv_boot : Inv backend (boot clock).
Proof.
  intros _. cbn. split; [left; split; reflexivity|]. split; [constructor|].
  split; [eexists; reflexivity|]. split; [eexists; reflexivity|]. now left.
Qed.

(** A turn that leaves the flag, the timers, the status map and the
    theme alone keeps the invariant. *)
Lemma Inv_frame (s : Sys) (w' : World) :
  Inv backend s -> down s = false ->
  isSending (st w') = isSending (st (world s)) ->
  timers w' = timers (world s) ->
  agentStatus (st w') = agentStatus (st (world s)) ->
  theme (st w') = theme (st (world s)) ->
  Inv backend (mkSys w' (inflight s) false).
Proof.
  intros HI Hup Hs Ht Ha Hth _. cbn [world inflight].
  rewrite Hs, Ht, Ha, Hth. exact (HI Hup).
Qed.

(** [handleSend], from a state that satisfies the invariant. *)
Lemma Inv_handleSend (s : Sys) :
  Inv backend s -> down s = false ->
  Inv backend (absorb (dispatch clock (handleSend backend) (world s)) (inflight s)).
Proof.
  intros HI Hup. destruct (HI Hup) as (HA & HT & HR & HP & Hth).
  unfold dispatch.
  destruct (isSending (st (world s))) eqn:Hs.
  - rewrite (handleSend_closed backend _ Hs). cbn [run absorb].
    now apply Inv_frame.
  - destruct (string_dec (Str.trim (input (st (world s)))) EmptyString) as [He|Hne].
    + rewrite (handleSend_blank backend _ He). cbn [run absorb].
      now apply Inv_frame.
    + rewrite (handleSend_suspends backend clock _ _ (conj Hne Hs)).
      destruct HA as [[_ Hin]|[Hc _]]; [|congruence]. rewrite Hin.
      intros _. cbn -[agent_rag agent_planner].
      split; [right; split; [reflexivity|]; eexists; reflexivity|].
      split; [exact HT|]. unfold optimistic.
      split; [rewrite lookup_insert_ne by discriminate; rewrite lookup_insert_eq; eauto|].
      split; [rewrite lookup_insert_eq; eauto | exact Hth].
Qed.

Lemma merged_status_known (data : jsval) (w w1 : World) :
  merged clock data w w1 ->
  is_Some (agentStatus (st w) !! agent_rag) ->
  is_Some (agentStatus (st w) !! agent_planner) ->
  is_Some (agentStatus (st w1) !! agent_rag) /\
  is_Some (agentStatus (st w1) !! agent_planner).
Proof.
  intros (_ & Hst & _) HR HP. rewrite Hst.
  destruct (truthy (reply_status data)).
  - split; apply lookup_union_is_Some; now right.
  - split; eexists; reflexivity.
Qed.

Lemma merged_timers_reset (data : jsval) (w w1 : World) :
  merged clock data w w1 ->
  Forall (fun t => t = reset_timer) (timers w) ->
  Forall (fun t => t = reset_timer) (timers w1).
Proof.
  intros (_ & _ & Htim & _) HT. rewrite Htim.
  destruct (truthy (reply_status data)); [exact HT|].
  apply Forall_app. split; [exact HT | repeat constructor].
Qed.

(** Every turn of the loop keeps the invariant. *)
Lemma Inv_step (s : Sys) (ev : Event) :
  Inv backend s -> Inv backend (step backend clock s ev).
Proof.
  intros HI. unfold step. destruct (down s) eqn:Hup; [exact HI|].
  destruct (HI Hup) as (HA & HT & HR & HP & Hth).
  destruct ev as [v|e| | | |i o|n].
  - cbn [run setInput Proc.setState absorb]. now apply Inv_frame.
  - unfold onKeyDown.
    destruct (String.eqb (ev_key e) "Enter" && negb (ev_shiftKey e)); cbn [snd].
    + now apply Inv_handleSend.
    + cbn [run absorb]. now apply Inv_frame.
  - cbn [Composer button_disabled].
    destruct (isSending (st (world s))); [exact HI | now apply Inv_handleSend].
  - cbn [run toggleTheme setTheme Proc.setState absorb]. intros _. cbn.
    split; [exact HA|]. split; [exact HT|]. split; [exact HR|].
    split; [exact HP|]. destruct (String.eqb (theme (st (world s))) "light"); auto.
  - unfold fire. destruct (timers (world s)) as [|[d cb] rest] eqn:Ht; [exact HI|].
    inversion HT as [|t ts Hhd Htl]; subst. inversion Hhd; subst d cb.
    intros _. cbn -[agent_rag agent_planner]. split; [exact HA|]. split; [exact Htl|].
    split; [apply idle_status_known|]. split; [apply idle_status_known | exact Hth].
  - destruct (inflight s !! i) as [k|] eqn:Hk; [|exact HI].
    destruct HA as [[_ Hin]|[Hs [text Hin]]]; rewrite Hin in Hk; [discriminate Hk|].
    destruct i as [|i]; [|discriminate Hk]. inversion Hk; subst k. rewrite Hin.
    cbn [delete list_delete].
    destruct (after_await_outcome backend clock text o (world s))
      as [[Hreq ->]
         | [(res & w1 & -> & Hok & Hread & -> & Hm)
           | (res & e & w2 & -> & Hok & Hex & -> & _)]].
    + intros _. cbn -[agent_rag agent_planner].
      split; [left; split; reflexivity|]. split; [exact HT|].
      split; [eexists; reflexivity|]. split; [eexists; reflexivity | exact Hth].
    + intros _. cbn -[agent_rag agent_planner].
      split; [left; split; reflexivity|].
      split; [exact (merged_timers_reset _ _ _ Hm HT)|].
      destruct (merged_status_known _ _ _ Hm HR HP) as [H1 H2].
      split; [exact H1|]. split; [exact H2|].
      destruct Hm as (_ & _ & _ & _ & _ & Hth' & _). now rewrite Hth'.
    + intros Hc. discriminate Hc.
  - now apply Inv_frame.
Qed.

Lemma Inv_steps (evs : list Event) (s : Sys) :
  Inv backend s -> Inv backend (steps backend clock s evs).
Proof.
  revert s. induction evs as [|ev evs IH]; intros s HI; [exact HI|].
  apply IH, Inv_step, HI.
Qed.

(** X19. Whatever the user, the backend and the timers do, at most one
    send awaits the backend at any time, and the in-flight flag (with it
    the disabled state of the send button) is set exactly while one
    does. *)
Theorem one_send_in_flight (evs : list Event) :
  let s := steps backend clock (boot clock) evs in
  down s = false ->
  (length (inflight s) <= 1)%nat /\
  (isSending (st (world s)) = true <-> length (inflight s) = 1%nat) /\
  button_disabled (composer (render 0 (st (world s)))) = isSending (st (world s)).
Proof.
  intros s Hup.
  destruct (Inv_steps evs _ Inv_boot Hup) as ([[Hs Hin]|[Hs [text Hin]]] & _);
    fold s in Hs, Hin; rewrite Hin, Hs; cbn; repeat split; auto; discriminate.
Qed.

(** X20. While the tree is up, both known agents have an entry in the
    status map, every pending timer is the status reset of 1200 ms, and
    the theme is [light] or [dark]. *)
Theorem known_agents_keep_status (evs : list Event) :
  let s := steps backend clock (boot clock) evs in
  down s = false ->
  is_Some (agentStatus (st (world s)) !! agent_rag) /\
  is_Some (agentStatus (st (world s)) !! agent_planner) /\
  Forall (fun t => t = reset_timer) (timers (world s)) /\
  (theme (st (world s)) = "light" \/ theme (st (world s)) = "dark").
Proof.
  intros s Hup. destruct (Inv_steps evs _ Inv_boot Hup) as (_ & HT & HR & HP & Hth).
  auto.
Qed.

Lemma step_store_grows (s : Sys) (ev : Event) :
  Inv backend s ->
  messages (st (world s)) `prefix_of` messages (st (world (step backend clock s ev))).
Proof.
  intros HI. unfold step. destruct (down s) eqn:Hup; [reflexivity|].
  destruct (HI Hup) as (HA & HT & _).
  destruct ev as [v|e| | | |i o|n]; try reflexivity.
  - unfold onKeyDown.
    destruct (String.eqb (ev_key e) "Enter" && negb (ev_shiftKey e)); cbn [snd];
      [|reflexivity].
    destruct (isSending (st (world s))) eqn:Hs;
      [rewrite (handleSend_closed backend _ Hs); reflexivity|].
    destruct (string_dec (Str.trim (input (st (world s)))) EmptyString) as [He|Hne];
      [rewrite (handleSend_blank backend _ He); reflexivity|].
    rewrite (handleSend_suspends backend clock _ _ (conj Hne Hs)). cbn.
    now apply prefix_app_r.
  - cbn [Composer button_disabled].
    destruct (isSending (st (world s))) eqn:Hs; [reflexivity|]. unfold dispatch.
    destruct (string_dec (Str.trim (input (st (world s)))) EmptyString) as [He|Hne];
      [rewrite (handleSend_blank backend _ He); reflexivity|].
    rewrite (handleSend_suspends backend clock _ _ (conj Hne Hs)). cbn.
    now apply prefix_app_r.
  - unfold fire. destruct (timers (world s)) as [|[d cb] rest] eqn:Ht; [reflexivity|].
    inversion HT as [|t ts Hhd Htl]; subst. inversion Hhd; subst d cb. reflexivity.
  - destruct (inflight s !! i) as [k|] eqn:Hk; [|reflexivity].
    destruct HA as [[_ Hin]|[Hs [text Hin]]]; rewrite Hin in Hk; [discriminate Hk|].
    destruct i as [|i]; [|discriminate Hk]. inversion Hk; subst k.
    destruct (after_await_outcome backend clock text o (world s))
      as [[Hreq ->]
         | [(res & w1 & -> & Hok & Hread & -> & Hm)
           | (res & e & w2 & -> & Hok & Hex & -> & Hst & _)]].
    + cbn. now apply prefix_app_r.
    + cbn. destruct Hm as (Hmsg & _). rewrite Hmsg. now apply prefix_app_r.
    + cbn. now rewrite Hst.
Qed.

(** X21. The message store only grows: along every run of the
    application, the store at any moment is the beginning of the store at
    every later moment, so no message is ever removed, changed or
    reordered. *)
Theorem store_append_only (evs later : list Event) :
  messages (st (world (steps backend clock (boot clock) evs)))
    `prefix_of` messages (st (world (steps backend clock (boot clock) (evs ++ later)))).
Proof.
  unfold steps. rewrite fold_left_app.
  pose proof (Inv_steps evs _ Inv_boot) as HI. unfold steps in HI.
  revert HI. generalize (fold_left (step backend clock) evs (boot clock)). intros s HI.
  revert s HI. induction later as [|ev later IH]; intros s HI; [reflexivity|].
  cbn [fold_left]. etransitivity; [apply (step_store_grows s ev HI)|].
  apply IH, Inv_step, HI.
Qed.

Lemma step_enter (s : Sys) :
  step backend clock s (Key (mkKey "Enter" false)) =
  if down s then s
  else absorb (dispatch clock (handleSend backend) (world s)) (inflight s).
Proof. reflexivity. Qed.

(** X22. Pressing Enter twice in a row has the effect of pressing it
    once: the second press finds the send in flight, or the input still
    blank, and is ignored. *)
Theorem enter_twice_sends_once (s : Sys) :
  let enter := Key (mkKey "Enter" false) in
  step backend clock (step backend clock s enter) enter = step backend clock s enter.
Proof.
  intros enter. unfold enter. rewrite (step_enter s).
  destruct (down s) eqn:Hup.
  - now rewrite step_enter, Hup.
  - unfold dispatch. destruct (isSending (st (world s))) eqn:Hs.
    + rewrite (handleSend_closed backend _ Hs). cbn [run absorb].
      rewrite step_enter. cbn [down world inflight]. unfold dispatch.
      now rewrite (handleSend_closed backend _ Hs).
    + destruct (string_dec (Str.trim (input (st (world s)))) EmptyString) as [He|Hne].
      * rewrite (handleSend_blank backend _ He). cbn [run absorb].
        rewrite step_enter. cbn [down world inflight]. unfold dispatch.
        now rewrite (handleSend_blank backend _ He).
      * rewrite (handleSend_suspends backend clock _ _ (conj Hne Hs)). cbn [absorb].
        rewrite step_enter. cbn [down world inflight]. unfold dispatch.
        now rewrite (handleSend_closed backend).
Qed.

End LoopFacts.

(** ** Concrete instances *)

Section MoreWitnesses.

Import Sample More.

Lemma user_message_is_trimmed_witness :
  exists req k w' um c pre post,
    dispatch clock (handleSend None) typing = Suspended req k w' /\
    last (messages (st w')) = Some um /\
    content um = JStr c /\
    req_body req = Some (JObj {[ "message" := JStr c ]}) /\
    input (st typing) = pre ++ c ++ post /\
    all_white pre = true /\ all_white post = true /\
    head_white c = false /\ last_white c = false /\
    c <> EmptyString.
Proof.
  apply (user_message_is_trimmed None clock typing);
    [vm_compute; discriminate | reflexivity].
Defined.

Lemma handleSend_optimistic_status_witness :
  exists req k w' um,
    dispatch clock (handleSend None) typing = Suspended req k w' /\
    agentStatus (st w') !! agent_rag = Some (JStr "thinking") /\
    agentStatus (st w') !! agent_planner = Some (JStr "idle") /\
    (forall a, a <> agent_rag -> a <> agent_planner ->
               agentStatus (st w') !! a = agentStatus (st typing) !! a) /\
    theme (st w') = theme (st typing) /\
    timers w' = timers typing /\
    console_log w' = console_log typing /\
    last (messages (st w')) = Some um /\
    id um = "u_" ++ num_to_string (clock (ticks typing)) /\
    timestamp um = JNum (clock (S (ticks typing))) /\
    ticks w' = S (S (ticks typing)).
Proof.
  apply (handleSend_optimistic_status None clock typing);
    [vm_compute; discriminate | reflexivity].
Defined.

Lemma handleSend_settles_once_witness :
  match resume clock (dispatch clock (handleSend None) typing) server_error awaiting with
  | Finished _ w' =>
      isSending (st w') = false /\
      (request_fails server_error = true \/
       exists res, server_error = Resolved res /\
         Forall readable
           (reply_entries (js_or (parsed res)
                             (simulateAgentResponse (Str.trim (input (st typing)))))))
  | Crashed _ w' =>
      st w' = st awaiting /\
      exists res, server_error = Resolved res /\ res_ok res = true /\
        Exists (fun m => nullish m = true)
          (reply_entries (js_or (parsed res)
                            (simulateAgentResponse (Str.trim (input (st typing))))))
  | Failed _ _ => False
  | Suspended _ _ _ => False
  end.
Proof.
  apply (handleSend_settles_once None clock typing server_error awaiting);
    [vm_compute; discriminate | reflexivity].
Defined.

Lemma handleSend_completion_frame_witness :
  (exists fresh,
      messages (st (failed_world clock (send_error offline) awaiting))
      = (messages (st awaiting) ++ fresh)%list /\
      length fresh = appended (Str.trim (input (st typing))) offline) /\
  input (st (failed_world clock (send_error offline) awaiting)) = input (st awaiting) /\
  theme (st (failed_world clock (send_error offline) awaiting)) = theme (st awaiting) /\
  timers awaiting `prefix_of` timers (failed_world clock (send_error offline) awaiting).
Proof.
  apply (handleSend_completion_frame None clock typing offline awaiting
           (failed_world clock (send_error offline) awaiting));
    [vm_compute; discriminate | reflexivity | reflexivity].
Defined.

Lemma handleSend_transient_status_witness :
  exists w' cb,
    resume clock (dispatch clock (handleSend None) typing) (Resolved plain_reply) awaiting
      = Finished tt w' /\
    agentStatus (st w') =
      {[ agent_rag := JStr "responding"; agent_planner := JStr "thinking" ]} /\
    timers w' = (timers awaiting ++ [(1200, cb)])%list /\
    forall s,
      agentStatus (cb s) = {[ agent_rag := JStr "idle"; agent_planner := JStr "idle" ]} /\
      messages (cb s) = messages s /\ input (cb s) = input s /\
      isSending (cb s) = isSending s /\ theme (cb s) = theme s.
Proof.
  apply (handleSend_transient_status None clock typing plain_reply awaiting);
    [vm_compute; discriminate | reflexivity | reflexivity | reflexivity | reflexivity
    | repeat constructor].
Defined.

Lemma stale_timer_overrides_sending_status_witness :
  exists req k w' w'',
    dispatch clock (handleSend None) stale = Suspended req k w' /\
    agentStatus (st w') !! agent_rag = Some (JStr "thinking") /\
    fire w' = Some w'' /\
    agentStatus (st w'') !! agent_rag = Some (JStr "idle") /\
    isSending (st w'') = true /\
    timers w'' = [].
Proof.
  apply (stale_timer_overrides_sending_status None clock stale []);
    [vm_compute; discriminate | reflexivity | reflexivity].
Defined.

Lemma handleSend_simulated_fallback_witness :
  exists w' m1 m2,
    resume clock (dispatch clock (handleSend None) typing) (Resolved empty_body) awaiting
      = Finished tt w' /\
    messages (st w') = (messages (st awaiting) ++ [m1; m2])%list /\
    role m1 = JStr "agent" /\ agentId m1 = JStr agent_rag /\
    content m1 = JStr (ragContent (Str.trim (input (st typing)))) /\
    role m2 = JStr "agent" /\ agentId m2 = JStr agent_planner /\
    content m2 = JStr (plannerReply (Str.trim (input (st typing)))) /\
    agentStatus (st w') !! agent_rag = Some (JStr "responding") /\
    agentStatus (st w') !! agent_planner = Some (JStr "thinking") /\
    (forall a, a <> agent_rag -> a <> agent_planner ->
               agentStatus (st w') !! a = agentStatus (st awaiting) !! a) /\
    timers w' = timers awaiting.
Proof.
  apply (handleSend_simulated_fallback None clock typing empty_body awaiting);
    [vm_compute; discriminate | reflexivity | reflexivity | reflexivity].
Defined.

Lemma handleSend_failure_detail_only_in_console_witness :
  exists w1 w2,
    resume clock (dispatch clock (handleSend None) typing) offline awaiting = Finished tt w1 /\
    resume clock (dispatch clock (handleSend None) typing) server_error awaiting
      = Finished tt w2 /\
    st w1 = st w2 /\
    console_log w1 = (console_log awaiting ++ [("error", send_error offline)])%list /\
    console_log w2 = (console_log awaiting ++ [("error", send_error server_error)])%list /\
    (forall e, offline = Rejected e -> send_error offline = e) /\
    (forall r body, offline = Resolved r -> res_text r = inr body ->
       err_message (send_error offline) =
       "Backend error: " ++
         (if String.eqb body EmptyString then num_to_string (res_status r) else body)).
Proof.
  apply (handleSend_failure_detail_only_in_console None clock typing offline server_error
           awaiting);
    [vm_compute; discriminate | reflexivity | reflexivity | reflexivity].
Defined.

Lemma ChatBubble_agent_identity_witness :
  (forall d, d ∈ EXAMPLE_AGENTS -> agentId greeting = JStr (agent_id d) ->
     avatar (ChatBubble 0 greeting) = Some (agent_color d, agent_emoji d) /\
     header (ChatBubble 0 greeting) = Some (Some (agent_emoji d), agent_name d)) /\
  ((forall d, d ∈ EXAMPLE_AGENTS -> agentId greeting <> JStr (agent_id d)) ->
     avatar (ChatBubble 0 greeting) = Some (themeTokens.secondary, robot) /\
     header (ChatBubble 0 greeting) = Some (None, "Agent")) /\
  (forall text t idx e,
      e ∈ [ragEntry text; plannerEntry text] ->
      role (convert_entry clock t idx e) = JStr "agent" /\
      exists d, d ∈ EXAMPLE_AGENTS /\
                agentId (convert_entry clock t idx e) = JStr (agent_id d)) /\
  (forall t0 t1 g,
      g ∈ messages (initial_state t0 t1) ->
      role g = JStr "agent" /\
      exists d, d ∈ EXAMPLE_AGENTS /\ agentId g = JStr (agent_id d)).
Proof.
  apply (ChatBubble_agent_identity clock 0 greeting); reflexivity.
Defined.

Lemma one_send_in_flight_witness :
  (length (inflight (steps None clock (boot clock) session)) <= 1)%nat /\
  (isSending (st (world (steps None clock (boot clock) session))) = true <->
   length (inflight (steps None clock (boot clock) session)) = 1%nat) /\
  button_disabled (composer (render 0 (st (world (steps None clock (boot clock) session)))))
  = isSending (st (world (steps None clock (boot clock) session))).
Proof.
  apply (one_send_in_flight None clock session). reflexivity.
Defined.

Lemma known_agents_keep_status_witness :
  is_Some (agentStatus (st (world (steps None clock (boot clock) session))) !! agent_rag) /\
  is_Some (agentStatus (st (world (steps None clock (boot clock) session))) !! agent_planner) /\
  Forall (fun t => t = reset_timer) (timers (world (steps None clock (boot clock) session))) /\
  (theme (st (world (steps None clock (boot clock) session))) = "light" \/
   theme (st (world (steps None clock (boot clock) session))) = "dark").
Proof.
  apply (known_agents_keep_status None clock session). reflexivity.
Defined.

(** The sample session, run: two sends, one failed and one answered by
    the simulator, leave seven messages, under the dark theme. *)
Example session_run :
  let s := steps None clock (boot clock) session in
  down s = false /\ inflight s = [] /\
  role <$> messages (st (world s)) =
    [JStr "agent"; JStr "agent"; JStr "user"; JStr "system"; JStr "user"; JStr "agent";
     JStr "agent"] /\
  content <$> (drop 4 (messages (st (world s)))) =
    [JStr "plan B"; JStr (ragContent "plan B"); JStr plannerPlan] /\
  theme (st (world s)) = "dark" /\
  status_text <$> (pv_status <$> agent_bar (render 0 (st (world s)))) =
    ["Responding"; "Thinking"].
Proof. vm_compute. repeat split; reflexivity. Qed.

End MoreWitnesses.
